(** * myping: the ICMP echo session engine of [ping.c]

    A shallow embedding of [ping.c]: the Internet checksum, the codec
    ([icmp_serialize], [parse_reply]), the probe window ([seq],
    [send_times]), the two event handlers of the [main] loop
    ([on_timeout], [on_recv]), the command line and the set-up of [main]
    and its loop.

    Conventions of the embedding:
    - a C buffer is a [list byte]; an access outside of it is undefined
      behaviour and yields [Fault]; the alignment of an access is not
      tracked;
    - [exit(EXIT_FAILURE)] yields [Exit];
    - what a system call returns is an argument of the definition that
      makes the call;
    - C integers are [Z] with the conversions written out;
    - the host byte order is a parameter [e : endianness] of every
      definition that reads or writes a multi-byte object;
    - a C [double] is a primitive binary64 [float]. *)

From Stdlib Require Import Strings.String.
From Stdlib Require Import ZArith List Lia Bool Floats Sorting.Sorted.
From Stdlib Require Import Strings.Byte.
Import ListNotations.
Open Scope Z_scope.

(** ** Outcomes of a C call *)

Inductive result (A : Type) : Type :=
| Ok (a : A)      (* normal return *)
| Exit            (* the process called exit(EXIT_FAILURE) *)
| Fault.          (* undefined behaviour: out-of-bounds access, overflow *)

Arguments Ok {A} a.
Arguments Exit {A}.
Arguments Fault {A}.

Definition bind {A B : Type} (c : result A) (k : A -> result B) : result B :=
  match c with
  | Ok a => k a
  | Exit => Exit
  | Fault => Fault
  end.

Notation "x <- c ;; k" := (bind c (fun x => k))
  (at level 61, c at next level, right associativity).
Notation "' p <- c ;; k" := (bind c (fun x => let p := x in k))
  (at level 61, p pattern, c at next level, right associativity).

(** ** Bytes and byte order *)

Definition byte_to_Z (b : byte) : Z := Z.of_N (Byte.to_N b).

(** Conversion to [uint8_t]: the value modulo 256. *)
Definition byte_of_Z (z : Z) : byte :=
  match Byte.of_N (Z.to_N (z mod 256)) with
  | Some b => b
  | None => x00
  end.

Inductive endianness : Type := LittleEndian | BigEndian.

Fixpoint le_encode (n : nat) (v : Z) : list byte :=
  match n with
  | O => []
  | S n' => byte_of_Z v :: le_encode n' (v / 256)
  end.

Fixpoint le_decode (bs : list byte) : Z :=
  match bs with
  | [] => 0
  | b :: bs' => byte_to_Z b + 256 * le_decode bs'
  end.

(** The object representation of an [n]-byte unsigned integer. *)
Definition encode (e : endianness) (n : nat) (v : Z) : list byte :=
  match e with
  | LittleEndian => le_encode n v
  | BigEndian => rev (le_encode n v)
  end.

Definition decode (e : endianness) (bs : list byte) : Z :=
  match e with
  | LittleEndian => le_decode bs
  | BigEndian => le_decode (rev bs)
  end.

Definition bswap16 (x : Z) : Z := (x mod 256) * 256 + (x / 256) mod 256.

Definition htons (e : endianness) (x : Z) : Z :=
  match e with
  | LittleEndian => bswap16 x
  | BigEndian => x mod 65536
  end.

Definition ntohs := htons.

(** ** Memory accesses through a [char*] *)

Definition in_bounds (buf : list byte) (off : Z) (n : nat) : bool :=
  (0 <=? off) && (off + Z.of_nat n <=? Z.of_nat (length buf)).

Definition load (buf : list byte) (off : Z) (n : nat) : result (list byte) :=
  if in_bounds buf off n
  then Ok (firstn n (skipn (Z.to_nat off) buf))
  else Fault.

Definition store (buf : list byte) (off : Z) (bs : list byte)
  : result (list byte) :=
  if in_bounds buf off (length bs)
  then Ok (firstn (Z.to_nat off) buf ++ bs
             ++ skipn (Z.to_nat off + length bs) buf)
  else Fault.

Definition load8 (buf : list byte) (off : Z) : result Z :=
  bs <- load buf off 1 ;; Ok (le_decode bs).

Definition load16 (e : endianness) (buf : list byte) (off : Z) : result Z :=
  bs <- load buf off 2 ;; Ok (decode e bs).

Definition load64 (e : endianness) (buf : list byte) (off : Z) : result Z :=
  bs <- load buf off 8 ;; Ok (decode e bs).

Definition store8 (buf : list byte) (off : Z) (v : Z) : result (list byte) :=
  store buf off [byte_of_Z v].

Definition store16 (e : endianness) (buf : list byte) (off : Z) (v : Z)
  : result (list byte) :=
  store buf off (encode e 2 v).

Definition store64 (e : endianness) (buf : list byte) (off : Z) (v : Z)
  : result (list byte) :=
  store buf off (encode e 8 v).

(** ** [icmp_t] *)

Record icmp_t : Type := mk_icmp {
  icmp_type : Z;      (* uint8_t type *)
  icmp_code : Z;      (* uint8_t code *)
  icmp_cksum : Z;     (* uint16_t checksum *)
  icmp_id : Z;        (* uint16_t id *)
  icmp_seq : Z;       (* uint16_t seq *)
  icmp_ts : Z         (* uint64_t ts *)
}.

(** [sizeof(icmp_t)] and the offsets of the members. *)
Definition sizeof_icmp_t : Z := 16.
Definition off_type : Z := 0.
Definition off_code : Z := 1.
Definition off_checksum : Z := 2.
Definition off_id : Z := 4.
Definition off_seq : Z := 6.
Definition off_ts : Z := 8.

(** Conversion of an [int] to [size_t], as the usual arithmetic
    conversions do when an [int] meets a [sizeof]. *)
Definition to_size_t (n : Z) : Z := n mod 2 ^ 64.

(** ** [icmp_checksum] *)

(** The loop [for (i = 0; i < len; i += 2) checksum += u16], where [u16]
    is the 16-bit object at [buf + i]; [n] is the number of iterations
    left and [checksum] is a [uint32_t]. *)
Fixpoint sum_words (e : endianness) (buf : list byte) (i : Z) (n : nat)
    (checksum : Z) : result Z :=
  match n with
  | O => Ok checksum
  | S n' =>
      u16 <- load16 e buf i ;;
      sum_words e buf (i + 2) n' ((checksum + u16) mod 2 ^ 32)
  end.

Definition icmp_checksum (e : endianness) (buf : list byte) (len : Z)
  : result Z :=
  '(len, checksum) <-
     (if Z.rem len 2 =? 1 then
        let len := len - 1 in
        b <- load8 buf (len - 1) ;;
        Ok (len, decode e [byte_of_Z b; x00])
      else Ok (len, 0)) ;;
  checksum <- sum_words e buf 0 (Z.to_nat ((len + 1) / 2)) checksum ;;
  let checksum :=
    (Z.shiftr checksum 16 + Z.land checksum 65535) mod 2 ^ 32 in
  let checksum := (checksum + Z.shiftr checksum 16) mod 2 ^ 32 in
  Ok (Z.land (Z.lnot checksum) 65535).

(** ** [icmp_serialize] and [send_req] *)

(** [buf] is the caller's buffer; [Exit] is the [exit(EXIT_FAILURE)] taken
    when [len != sizeof(icmp_t)]. The stores go through the [icmp_t]
    overlaid on [buf], member by member, in the order of the source. *)
Definition icmp_serialize (e : endianness) (req : icmp_t) (buf : list byte)
    (len : Z) : result (list byte) :=
  if negb (to_size_t len =? sizeof_icmp_t) then Exit else
  buf <- store16 e buf off_checksum 0 ;;
  buf <- store8 buf off_type (icmp_type req) ;;
  buf <- store8 buf off_code (icmp_code req) ;;
  buf <- store16 e buf off_id (htons e (icmp_id req)) ;;
  buf <- store16 e buf off_seq (htons e (icmp_seq req)) ;;
  buf <- store64 e buf off_ts (icmp_ts req) ;;
  checksum <- icmp_checksum e buf len ;;
  store16 e buf off_checksum checksum.

(** [send_req] serializes into a local [char buf[sizeof(icmp_t)]] and hands
    the bytes to [sendto]; the datagram sent is the result. The local
    buffer starts out indeterminate, here as zeros. This is [send_req]
    when [inet_pton] and [sendto] succeed; [send_req_sys] below has the
    two exits. *)
Definition send_req (e : endianness) (req : icmp_t) : result (list byte) :=
  icmp_serialize e req (repeat x00 16) sizeof_icmp_t.

(** What the system calls of one tick return. *)
Record syscalls : Type := mk_syscalls {
  sys_read : Z;         (* ssize_t read(tfd, &ntimeout, sizeof(uint64_t)) *)
  sys_inet_pton : Z;    (* int ret = inet_pton(AF_INET, ip, &addr.sin_addr) *)
  sys_sendto : Z        (* ret = sendto(sfd, buf, sizeof(icmp_t), ...) *)
}.

(** [send_req] with its two exits: on [inet_pton] and on [sendto]
    returning -1. *)
Definition send_req_sys (e : endianness) (req : icmp_t) (sc : syscalls)
  : result (list byte) :=
  buf <- icmp_serialize e req (repeat x00 16) sizeof_icmp_t ;;
  if sys_inet_pton sc =? -1 then Exit else
  if sys_sendto sc =? -1 then Exit else
  Ok buf.

(** ** [parse_reply] *)

(** [*reply = *(const icmp_t* )buf]: every member read in host order. *)
Definition load_icmp (e : endianness) (buf : list byte) : result icmp_t :=
  ty <- load8 buf off_type ;;
  co <- load8 buf off_code ;;
  ck <- load16 e buf off_checksum ;;
  id <- load16 e buf off_id ;;
  sq <- load16 e buf off_seq ;;
  ts <- load64 e buf off_ts ;;
  Ok (mk_icmp ty co ck id sq ts).

(** [malloc(len)] followed by [memcpy(copy, buf, len)]: the first [len]
    bytes at [buf]. [len] is converted to [size_t]; a negative [len] asks
    for more than any object holds, and so does a [len] beyond [buf].
    Within [buf] the allocation is taken to succeed (the source does not
    test the pointer). *)
Definition copy_of (buf : list byte) (len : Z) : result (list byte) :=
  if to_size_t len <=? Z.of_nat (length buf)
  then Ok (firstn (Z.to_nat (to_size_t len)) buf)
  else Fault.

(** [buf] is the memory readable at the pointer; the result is the return
    value paired with the contents of [*reply] on return. *)
Definition parse_reply (e : endianness) (reply : icmp_t) (buf : list byte)
    (len : Z) : result (Z * icmp_t) :=
  if to_size_t len <? sizeof_icmp_t then Ok (-1, reply) else
  reply <- load_icmp e buf ;;
  if negb (icmp_type reply =? 0) || negb (icmp_code reply =? 0)
  then Ok (-1, reply) else
  copy <- copy_of buf len ;;
  copy <- store16 e copy off_checksum 0 ;;
  checksum <- icmp_checksum e copy len ;;
  if negb (icmp_cksum reply =? checksum) then Ok (-1, reply) else
  Ok (0, mk_icmp (icmp_type reply) (icmp_code reply)
           (ntohs e (icmp_cksum reply))
           (ntohs e (icmp_id reply))
           (ntohs e (icmp_seq reply))
           (icmp_ts reply)).

(** ** The probe window and the event handlers *)

Definition TIMEOUT : Z := 5.
Definition MTU : Z := 1500.
Definition IPV4_HEADER_SIZE : Z := 20.
Definition TTL_OFFSET : Z := 8.

(** The globals [seq] and [send_times]. *)
Record session : Type := mk_session {
  seq : Z;                      (* static int seq *)
  send_times : list float       (* static double send_times[TIMEOUT] *)
}.

Definition initial : session := mk_session 0 (repeat 0%float 5).

(** The lines written to standard output, and the datagrams sent. *)
Inductive event : Type :=
| EvTimeout (s : Z)                          (* timeout seq=%d *)
| EvReply (s : Z) (ttl : Z) (time : float)   (* reply seq=%d ttl=%d time=.. *)
| EvSend (pkt : list byte).                  (* sendto *)

Definition in_int (n : Z) : bool := (- 2 ^ 31 <=? n) && (n <? 2 ^ 31).

(** The value of an [int] expression; signed overflow is undefined. *)
Definition int_val (n : Z) : result Z := if in_int n then Ok n else Fault.

Definition slot_get (times : list float) (index : Z) : result float :=
  if (0 <=? index) && (index <? TIMEOUT) then
    match nth_error times (Z.to_nat index) with
    | Some t => Ok t
    | None => Fault
    end
  else Fault.

Definition slot_set (times : list float) (index : Z) (t : float)
  : result (list float) :=
  if (0 <=? index) && (index <? Z.of_nat (length times)) && (index <? TIMEOUT)
  then Ok (firstn (Z.to_nat index) times ++ t
             :: skipn (S (Z.to_nat index)) times)
  else Fault.

(** [x != 0] on doubles. *)
Definition nonzero (x : float) : bool := negb (PrimFloat.eqb x 0%float).

(** [on_timeout]; [now] is what [time_in_ms()] returns, [now_s] what
    [time(NULL)] returns and [pid] what [getpid()] returns. This is
    [on_timeout] when the [read] that drains the timer and the calls of
    [send_req] succeed; [on_timeout_sys] below has the exits. *)
Definition on_timeout (e : endianness) (pid : Z) (now : float) (now_s : Z)
    (st : session) : result (session * list event) :=
  let index := Z.rem (seq st) TIMEOUT in
  t <- slot_get (send_times st) index ;;
  out <- (if nonzero t
          then s <- int_val (seq st - TIMEOUT) ;; Ok [EvTimeout s]
          else Ok []) ;;
  times <- slot_set (send_times st) index now ;;
  let req := mk_icmp 8 0 0 (Z.land pid 65535) (seq st mod 2 ^ 16)
               (now_s mod 2 ^ 64) in
  pkt <- send_req e req ;;
  Ok (mk_session (seq st) times, out ++ [EvSend pkt]).

(** [on_timeout] with the exit on the [read] that drains the timer, whose
    result is compared with [sizeof(uint64_t)] as a [size_t], and with the
    exits of [send_req]. The slot is written before the [read]. *)
Definition on_timeout_sys (e : endianness) (pid : Z) (now : float)
    (now_s : Z) (sc : syscalls) (st : session)
  : result (session * list event) :=
  let index := Z.rem (seq st) TIMEOUT in
  t <- slot_get (send_times st) index ;;
  out <- (if nonzero t
          then s <- int_val (seq st - TIMEOUT) ;; Ok [EvTimeout s]
          else Ok []) ;;
  times <- slot_set (send_times st) index now ;;
  if negb (to_size_t (sys_read sc) =? 8) then Exit else
  let req := mk_icmp 8 0 0 (Z.land pid 65535) (seq st mod 2 ^ 16)
               (now_s mod 2 ^ 64) in
  pkt <- send_req_sys e req sc ;;
  Ok (mk_session (seq st) times, out ++ [EvSend pkt]).

(** The [icmp_t reply] local of [on_recv] before [parse_reply] fills it. *)
Definition no_reply : icmp_t := mk_icmp 0 0 0 0 0 0.

(** [on_recv]; [buf] is the contents of [char buf[MTU]] after [recvfrom]
    and [nrecv] the value [recvfrom] returned; [now] is what [time_in_ms()]
    returns if it is called. *)
Definition on_recv (e : endianness) (pid : Z) (buf : list byte) (nrecv : Z)
    (now : float) (st : session) : result (session * list event) :=
  if nrecv =? -1 then Exit else
  ttl <- load8 buf TTL_OFFSET ;;
  let icmp_packet := skipn (Z.to_nat IPV4_HEADER_SIZE) buf in
  let icmp_size := nrecv - IPV4_HEADER_SIZE in
  '(ret, reply) <- parse_reply e no_reply icmp_packet icmp_size ;;
  if ret =? -1 then Ok (st, []) else
  if negb (icmp_id reply =? Z.land pid 65535) then Ok (st, []) else
  let index := Z.rem (icmp_seq reply) TIMEOUT in
  limit <- int_val (seq st - TIMEOUT) ;;
  if icmp_seq reply <=? limit then Ok (st, []) else
  t <- slot_get (send_times st) index ;;
  let time := PrimFloat.sub now t in
  times <- slot_set (send_times st) index 0%float ;;
  Ok (mk_session (seq st) times, [EvReply (icmp_seq reply) ttl time]).

(** ** The loop of [main] *)

(** What [epoll_wait] reports, with what the handler then obtains from the
    system. *)
Inductive input : Type :=
| Timer (now : float) (now_s : Z)
| Socket (buf : list byte) (nrecv : Z) (now : float).

Definition step (e : endianness) (pid : Z) (st : session) (i : input)
  : result (session * list event) :=
  match i with
  | Socket buf nrecv now => on_recv e pid buf nrecv now st
  | Timer now now_s =>
      s <- int_val (seq st + 1) ;;
      on_timeout e pid now now_s (mk_session s (send_times st))
  end.

Fixpoint run (e : endianness) (pid : Z) (st : session) (ins : list input)
  : result (session * list event) :=
  match ins with
  | [] => Ok (st, [])
  | i :: ins' =>
      '(st1, out1) <- step e pid st i ;;
      '(st2, out2) <- run e pid st1 ins' ;;
      Ok (st2, out1 ++ out2)
  end.

(** [step] and [run] are the loop with [epoll_wait] reporting the socket or
    the timer and the system calls of a tick succeeding. The loop with all
    of its exits follows. *)

(** One return of [epoll_wait], with what the handlers then obtain from
    the system. *)
Record wakeup : Type := mk_wakeup {
  w_nev : Z;              (* int nev = epoll_wait(efd, &ev, 1, -1) *)
  w_fd : Z;               (* ev.data.fd *)
  w_buf : list byte;      (* char buf[MTU] after recvfrom *)
  w_nrecv : Z;            (* int nrecv = recvfrom(sfd, buf, MTU, ...) *)
  w_now : float;          (* time_in_ms() *)
  w_now_s : Z;            (* time(NULL) *)
  w_calls : syscalls
}.

(** The body of [for (;;)] in [main]. *)
Definition main_loop_body (e : endianness) (pid sfd tfd : Z) (st : session)
    (w : wakeup) : result (session * list event) :=
  if negb (w_nev w =? 1) then Exit else
  if w_fd w =? sfd then on_recv e pid (w_buf w) (w_nrecv w) (w_now w) st else
  if w_fd w =? tfd then
    s <- int_val (seq st + 1) ;;
    on_timeout_sys e pid (w_now w) (w_now_s w) (w_calls w)
      (mk_session s (send_times st))
  else Exit.

(** The loop over the wake-ups [ws]; it ends with [Exit] or [Fault] at the
    first iteration that does. *)
Fixpoint main_loop (e : endianness) (pid sfd tfd : Z) (st : session)
    (ws : list wakeup) : result (session * list event) :=
  match ws with
  | [] => Ok (st, [])
  | w :: ws' =>
      '(st1, out1) <- main_loop_body e pid sfd tfd st w ;;
      '(st2, out2) <- main_loop e pid sfd tfd st1 ws' ;;
      Ok (st2, out1 ++ out2)
  end.

(** ** The command line of [main] *)

(** How [main] leaves its argument handling. *)
Inductive startup : Type :=
| PrintHelp                    (* HELP_TEXT, exit(EXIT_SUCCESS) *)
| PrintVersion                 (* version line, exit(EXIT_SUCCESS) *)
| UsageError                   (* HELP_TEXT, exit(EXIT_FAILURE) *)
| RunSession (ip : string).    (* argc == 2: goes on with ip = argv[1] *)

(** The loop over [argv[1 .. argc - 1]]: the first argument that is one of
    the two options ends the process. *)
Fixpoint scan_options (args : list string) : option startup :=
  match args with
  | [] => None
  | a :: args' =>
      if String.eqb a "--help" then Some PrintHelp
      else if String.eqb a "--version" then Some PrintVersion
      else scan_options args'
  end.

(** [argv] holds the [argc] arguments, the program name first. *)
Definition main_startup (argv : list string) : startup :=
  match scan_options (tl argv) with
  | Some s => s
  | None =>
      if negb (Nat.eqb (List.length argv) 2) then UsageError
      else RunSession (nth 1 argv EmptyString)
  end.

(** ** The set-up of [main] *)

(** What the calls that set the session up return. *)
Record setup_calls : Type := mk_setup {
  r_socket : Z;             (* socket(AF_INET, SOCK_RAW, IPPROTO_ICMP) *)
  r_epoll_create : Z;       (* epoll_create(1) *)
  r_timerfd_create : Z;     (* timerfd_create(CLOCK_MONOTONIC, 0) *)
  r_timerfd_settime : Z;    (* timerfd_settime(tfd, 0, &its, NULL) *)
  r_epoll_ctl_sfd : Z;      (* epoll_ctl(efd, EPOLL_CTL_ADD, sfd, &ev) *)
  r_epoll_ctl_tfd : Z       (* epoll_ctl(efd, EPOLL_CTL_ADD, tfd, &ev) *)
}.

Definition create_efd (c : setup_calls) : result Z :=
  if r_epoll_create c =? -1 then Exit else Ok (r_epoll_create c).

Definition create_sfd (c : setup_calls) : result Z :=
  if r_socket c =? -1 then Exit else Ok (r_socket c).

Definition create_tfd (c : setup_calls) : result Z :=
  if r_timerfd_create c =? -1 then Exit else
  if r_timerfd_settime c =? -1 then Exit else
  Ok (r_timerfd_create c).

Definition register_epoll_event (c : setup_calls) (efd sfd tfd : Z)
  : result unit :=
  if r_epoll_ctl_sfd c =? -1 then Exit else
  if r_epoll_ctl_tfd c =? -1 then Exit else
  Ok tt.

(** How [main] gets to its loop, if it does. *)
Inductive launch : Type :=
| Stopped (s : startup)       (* the process ended in the argument handling *)
| SetupFailed                 (* exit(EXIT_FAILURE) while setting up *)
| EnterLoop (ip : string) (sfd efd tfd : Z).   (* for (;;) *)

(** [main] from its entry to the loop. *)
Definition main_launch (argv : list string) (c : setup_calls) : launch :=
  match main_startup argv with
  | RunSession ip =>
      match (sfd <- create_sfd c ;;
             efd <- create_efd c ;;
             tfd <- create_tfd c ;;
             _ <- register_epoll_event c efd sfd tfd ;;
             Ok (sfd, efd, tfd)) with
      | Ok (sfd, efd, tfd) => EnterLoop ip sfd efd tfd
      | _ => SetupFailed
      end
  | s => Stopped s
  end.

(** ** Reference definitions used to state the properties *)

(** Ones'-complement addition of two 16-bit words: the carry out of bit 15
    is added back in (end-around carry). *)
Definition oc_add (a b : Z) : Z := (a + b) mod 65536 + (a + b) / 65536.

Definition oc_sum (ws : list Z) : Z := fold_left oc_add ws 0.

(** The 16-bit words of a buffer read in byte order [e]; a trailing single
    byte is completed by a zero byte. *)
Fixpoint words16 (e : endianness) (bs : list byte) : list Z :=
  match bs with
  | b0 :: b1 :: bs' => decode e [b0; b1] :: words16 e bs'
  | [b0] => [decode e [b0; x00]]
  | [] => []
  end.

Definition zsum (ws : list Z) : Z := fold_right Z.add 0 ws.

(** [f] is the ones'-complement representative of the natural number [S]:
    congruent modulo 65535, and zero only for zero. *)
Definition oc_repr (S f : Z) : Prop :=
  0 <= f <= 65535 /\ (exists k, S = f + 65535 * k) /\ (f = 0 <-> S = 0).

(** The Internet checksum of a buffer, as a number in network byte order. *)
Definition inet_checksum (bs : list byte) : Z :=
  65535 - oc_sum (words16 BigEndian bs).

(** The bytes [off .. off + n - 1] of a buffer. *)
Definition field (bs : list byte) (off n : nat) : list byte :=
  firstn n (skipn off bs).

(** The 16 bytes of the wire format with [ck] as the checksum field. *)
Definition wire_body (e : endianness) (req : icmp_t) (ck : list byte)
  : list byte :=
  [byte_of_Z (icmp_type req); byte_of_Z (icmp_code req)] ++ ck
    ++ encode BigEndian 2 (icmp_id req)
    ++ encode BigEndian 2 (icmp_seq req)
    ++ encode e 8 (icmp_ts req).

Definition wire_format (e : endianness) (req : icmp_t) : list byte :=
  wire_body e req
    (encode BigEndian 2 (inet_checksum (wire_body e req [x00; x00]))).

(** A packet with its checksum field zeroed. *)
Definition zero_checksum_field (bs : list byte) : list byte :=
  firstn 2 bs ++ [x00; x00] ++ skipn 4 bs.

(** The checks of [parse_reply] gathered into one test: the length, then
    type and code, then what [icmp_checksum], the function of the code,
    returns on a copy with a zeroed checksum field against the received
    field, both as network-order numbers. It says which packets the code
    accepts, not which packets carry a right checksum: [icmp_checksum] is
    the Internet checksum at even lengths only. [inet_valid] below is the
    test with the Internet checksum. *)
Definition valid_reply (e : endianness) (buf : list byte) (len : Z) : bool :=
  (16 <=? len)
  && (le_decode (field buf 0 1) =? 0)
  && (le_decode (field buf 1 1) =? 0)
  && match icmp_checksum e
             (zero_checksum_field (firstn (Z.to_nat len) buf)) len with
     | Ok c => decode BigEndian (encode e 2 c)
               =? decode BigEndian (field buf 2 2)
     | _ => false
     end.

(** A reply that is valid in the sense of the Internet checksum: at least
    16 bytes, type and code 0, and the checksum field, read in network
    order, equal to [inet_checksum] of the [len] bytes with that field
    zeroed. *)
Definition inet_valid (buf : list byte) (len : Z) : bool :=
  (16 <=? len)
  && (le_decode (field buf 0 1) =? 0)
  && (le_decode (field buf 1 1) =? 0)
  && (inet_checksum (zero_checksum_field (firstn (Z.to_nat len) buf))
      =? decode BigEndian (field buf 2 2)).

(** The record a valid reply is parsed into: identifier, sequence number
    and checksum read as network-order numbers, the timestamp as stored. *)
Definition parsed_reply (e : endianness) (buf : list byte) : icmp_t :=
  mk_icmp 0 0
    (decode BigEndian (field buf 2 2))
    (decode BigEndian (field buf 4 2))
    (decode BigEndian (field buf 6 2))
    (decode e (field buf 8 8)).

(** The self-check of a checksum: compute it with [icmp_checksum] on a
    host of byte order [e], store it into the checksum field, and sum the
    16-bit words of the result, read in byte order [e'], with end-around
    carry. *)
Definition checksum_self_check (e e' : endianness) (buf : list byte)
  : result Z :=
  checksum <- icmp_checksum e buf (Z.of_nat (length buf)) ;;
  buf' <- store16 e buf off_checksum checksum ;;
  Ok (oc_sum (words16 e' buf')).

(** The end of [icmp_checksum] as a function of the accumulator: the two
    folding steps, the complement and the conversion to [uint16_t]. *)
Definition fold_complement32 (c : Z) : Z :=
  let c := (Z.shiftr c 16 + Z.land c 65535) mod 2 ^ 32 in
  let c := (c + Z.shiftr c 16) mod 2 ^ 32 in
  Z.land (Z.lnot c) 65535.

(** The probes sent while the inputs [ins] are handled by a session whose
    counter stands at [s]: the sequence number and the [time_in_ms()]
    reading of each timer tick, oldest first. *)
Fixpoint probes (s : Z) (ins : list input) : list (Z * float) :=
  match ins with
  | [] => []
  | Timer now _ :: ins' => (s + 1, now) :: probes (s + 1) ins'
  | Socket _ _ _ :: ins' => probes s ins'
  end.

(** The send time of the first probe of [log], a list with the newest
    probe first, whose sequence number falls into slot [index]. *)
Fixpoint last_sent (index : Z) (log : list (Z * float)) : option float :=
  match log with
  | [] => None
  | (s, t) :: log' =>
      if Z.rem s TIMEOUT =? index then Some t else last_sent index log'
  end.

(** The window invariant, relative to the log of the probes sent so far
    (newest first): five slots, each 0 or the send time of the newest
    probe of its residue class. *)
Definition window_ok (st : session) (log : list (Z * float)) : Prop :=
  length (send_times st) = 5%nat
  /\ forall index, 0 <= index < TIMEOUT ->
       exists t, slot_get (send_times st) index = Ok t
                 /\ (t = 0%float \/ last_sent index log = Some t).

(** A buffer given by the values of its bytes. *)
Definition bytes (l : list Z) : list byte := map byte_of_Z l.

(** A receive buffer of [MTU] bytes that holds an IPv4 header carrying
    the given TTL, then the ICMP bytes, then zeros. *)
Definition recv_buf (ttl : Z) (icmp : list byte) : list byte :=
  repeat x00 8 ++ [byte_of_Z ttl] ++ repeat x00 11 ++ icmp
    ++ repeat x00 (1480 - length icmp).

(** The echo reply of a peer to the probe with sequence number [s] of the
    process [pid], as received on a little-endian host with TTL 64. *)
Definition echo_reply (pid s : Z) : list byte :=
  recv_buf 64 (wire_format LittleEndian (mk_icmp 0 0 0 pid s 1700000000)).

(** What the environment hands to the loop: a wall clock that is not at
    the epoch, and a [recvfrom] into the [MTU] bytes of [buf]. *)
Definition input_ok (i : input) : Prop :=
  match i with
  | Timer now _ => nonzero now = true
  | Socket buf nrecv _ => length buf = 1500%nat /\ -1 <= nrecv <= MTU
  end.

(** A probe is sent into slot [index] by input [i], at time [t]. *)
Definition sent_into (st : session) (i : input) (index : Z) (t : float)
  : Prop :=
  exists now_s, i = Timer t now_s /\ Z.rem (seq st + 1) TIMEOUT = index.

(** Input [i] is a datagram whose ICMP part passes the length, type and
    code and checksum checks, carries the identifier of the process and a
    sequence number that is not stale, and falls into slot [index]. *)
Definition accepted_into (e : endianness) (pid : Z) (st : session)
    (i : input) (index : Z) : Prop :=
  exists buf nrecv now,
    i = Socket buf nrecv now
    /\ valid_reply e (skipn 20 buf) (nrecv - 20) = true
    /\ icmp_id (parsed_reply e (skipn 20 buf)) = Z.land pid 65535
    /\ seq st - TIMEOUT < icmp_seq (parsed_reply e (skipn 20 buf))
    /\ Z.rem (icmp_seq (parsed_reply e (skipn 20 buf))) TIMEOUT = index.

(** The output reduced to what the window claims speak of. *)
Inductive mark : Type :=
| Sent (s : Z)
| TimedOut (s : Z)
| Replied (s : Z).

Definition wire_seq (pkt : list byte) : Z :=
  decode BigEndian (field pkt 6 2).

Definition mark_of (ev : event) : mark :=
  match ev with
  | EvTimeout s => TimedOut s
  | EvReply s _ _ => Replied s
  | EvSend pkt => Sent (wire_seq pkt)
  end.

(** The request [on_timeout] builds for the sequence counter [s]. *)
Definition probe (pid s now_s : Z) : icmp_t :=
  mk_icmp 8 0 0 (Z.land pid 65535) (s mod 2 ^ 16) (now_s mod 2 ^ 64).

(** A buffer with the byte at index [i] replaced by [b]. *)
Definition set_byte (i : nat) (b : byte) (bs : list byte) : list byte :=
  firstn i bs ++ b :: skipn (S i) bs.

(** A [recvfrom] that delivered at least the 20 bytes of an IPv4 header
    into the [MTU] bytes of [buf]. *)
Definition datagram_ok (i : input) : Prop :=
  match i with
  | Timer _ _ => True
  | Socket buf nrecv _ => length buf = 1500%nat /\ 20 <= nrecv <= MTU
  end.

(** The requests [on_timeout] builds while the inputs [ins] are handled by
    a session whose counter stands at [s], oldest first. *)
Fixpoint requests (pid s : Z) (ins : list input) : list icmp_t :=
  match ins with
  | [] => []
  | Timer _ now_s :: ins' =>
      probe pid (s + 1) now_s :: requests pid (s + 1) ins'
  | Socket _ _ _ :: ins' => requests pid s ins'
  end.

(** The datagrams sent, in order. *)
Fixpoint sent (out : list event) : list (list byte) :=
  match out with
  | [] => []
  | EvSend pkt :: out' => pkt :: sent out'
  | _ :: out' => sent out'
  end.

(** The sequence numbers of the timeout lines, in order. *)
Fixpoint timeouts (out : list event) : list Z :=
  match out with
  | [] => []
  | EvTimeout k :: out' => k :: timeouts out'
  | _ :: out' => timeouts out'
  end.

(** What [n] ticks print and send when no reply is ever accepted, from a
    counter at [s]: each tick sends its probe, preceded from the sixth
    probe on by the timeout of the probe five before it. *)
Fixpoint silent_marks (s : Z) (n : nat) : list mark :=
  match n with
  | O => []
  | S n' =>
      (if TIMEOUT <? s + 1 then [TimedOut (s + 1 - TIMEOUT)] else [])
        ++ Sent ((s + 1) mod 65536) :: silent_marks (s + 1) n'
  end.

(** After [s] ticks without an accepted reply: a slot is set exactly when
    one of the probes 1..[s] went into it. *)
Definition filled (s : Z) (times : list float) : Prop :=
  forall index t,
    slot_get times index = Ok t ->
    (nonzero t = true <-> exists k, 1 <= k <= s /\ Z.rem k TIMEOUT = index).

(** A set slot was written by one of the probes sent so far. *)
Definition set_by_probe (st : session) : Prop :=
  length (send_times st) = 5%nat
  /\ 0 <= seq st
  /\ forall index t,
       slot_get (send_times st) index = Ok t -> nonzero t = true ->
       exists k, 1 <= k <= seq st /\ Z.rem k TIMEOUT = index.

(** One of the two options of the command line. *)
Definition is_option (a : string) : bool :=
  String.eqb a "--help" || String.eqb a "--version".

(** No system call of the iteration failed: [epoll_wait] reported one
    event, on the socket or on the timer; on the socket [recvfrom] did not
    return -1; on the timer [read] returned the 8 bytes of the counter and
    neither [inet_pton] nor [sendto] returned -1. *)
Definition calls_succeed (sfd tfd : Z) (w : wakeup) : bool :=
  (w_nev w =? 1)
  && (((w_fd w =? sfd) && negb (w_nrecv w =? -1))
      || (negb (w_fd w =? sfd) && (w_fd w =? tfd)
          && (sys_read (w_calls w) =? 8)
          && negb (sys_inet_pton (w_calls w) =? -1)
          && negb (sys_sendto (w_calls w) =? -1))).

(** What the system may hand to an iteration: on the socket, [recvfrom]
    fails or delivers at least the 20 bytes of an IPv4 header into the
    [MTU] bytes of [buf]; [read] returns an [ssize_t]. *)
Definition wakeup_ok (sfd : Z) (w : wakeup) : Prop :=
  (w_fd w = sfd ->
   length (w_buf w) = 1500%nat
   /\ (w_nrecv w = -1 \/ 20 <= w_nrecv w <= MTU))
  /\ - 2 ^ 63 <= sys_read (w_calls w) < 2 ^ 63.

(** The input of [step] an iteration amounts to when its calls succeed. *)
Definition input_of (sfd : Z) (w : wakeup) : input :=
  if w_fd w =? sfd then Socket (w_buf w) (w_nrecv w) (w_now w)
  else Timer (w_now w) (w_now_s w).

(** None of the six set-up calls returned -1. *)
Definition setup_succeeds (c : setup_calls) : bool :=
  negb (r_socket c =? -1) && negb (r_epoll_create c =? -1)
  && negb (r_timerfd_create c =? -1) && negb (r_timerfd_settime c =? -1)
  && negb (r_epoll_ctl_sfd c =? -1) && negb (r_epoll_ctl_tfd c =? -1).

(** ** Bytes *)

Lemma byte_to_Z_range (b : byte) : 0 <= byte_to_Z b < 256.
Proof.
  unfold byte_to_Z. pose proof (Byte.to_N_bounded b). lia.
Qed.

Lemma byte_to_of_Z (z : Z) : byte_to_Z (byte_of_Z z) = z mod 256.
Proof.
  unfold byte_of_Z, byte_to_Z.
  assert (H : 0 <= z mod 256 < 256) by (apply Z.mod_pos_bound; lia).
  destruct (Byte.of_N (Z.to_N (z mod 256))) as [b|] eqn:E.
  - apply Byte.to_of_N in E. rewrite E. lia.
  - apply Byte.of_N_None_iff in E. lia.
Qed.

Lemma byte_of_to_Z (b : byte) : byte_of_Z (byte_to_Z b) = b.
Proof.
  unfold byte_of_Z. pose proof (byte_to_Z_range b) as H.
  rewrite Z.mod_small by exact H. unfold byte_to_Z.
  rewrite N2Z.id, Byte.of_to_N. reflexivity.
Qed.

Lemma byte_of_Z_congr (a b : Z) :
  a mod 256 = b mod 256 -> byte_of_Z a = byte_of_Z b.
Proof.
  intros H. unfold byte_of_Z. rewrite H. reflexivity.
Qed.

Lemma le_decode_encode (n : nat) (v : Z) :
  le_decode (le_encode n v) = v mod 256 ^ Z.of_nat n.
Proof.
  revert v. induction n as [|n IH]; intros v.
  - simpl. rewrite Z.mod_1_r. reflexivity.
  - cbn [le_encode le_decode]. rewrite IH, byte_to_of_Z.
    rewrite Nat2Z.inj_succ, Z.pow_succ_r by lia.
    rewrite Z.rem_mul_r by lia. reflexivity.
Qed.

Lemma decode_encode (e : endianness) (n : nat) (v : Z) :
  decode e (encode e n v) = v mod 256 ^ Z.of_nat n.
Proof.
  destruct e; unfold decode, encode.
  - apply le_decode_encode.
  - rewrite rev_involutive. apply le_decode_encode.
Qed.

Lemma encode_length (e : endianness) (n : nat) (v : Z) :
  length (encode e n v) = n.
Proof.
  assert (H : forall m w, length (le_encode m w) = m).
  { induction m as [|m IH]; intros w; simpl; [reflexivity | now rewrite IH]. }
  destruct e; unfold encode; [| rewrite length_rev]; apply H.
Qed.

Lemma decode2 (e : endianness) (b0 b1 : byte) :
  decode e [b0; b1] =
  match e with
  | LittleEndian => byte_to_Z b0 + 256 * byte_to_Z b1
  | BigEndian => byte_to_Z b1 + 256 * byte_to_Z b0
  end.
Proof. destruct e; cbn [decode le_decode rev app]; lia. Qed.

Lemma decode2_range (e : endianness) (b0 b1 : byte) :
  0 <= decode e [b0; b1] <= 65535.
Proof.
  rewrite decode2. pose proof (byte_to_Z_range b0).
  pose proof (byte_to_Z_range b1). destruct e; lia.
Qed.

Lemma encode2_big (v : Z) :
  encode BigEndian 2 v = [byte_of_Z (v / 256); byte_of_Z v].
Proof. reflexivity. Qed.

Lemma encode2_little (v : Z) :
  encode LittleEndian 2 v = [byte_of_Z v; byte_of_Z (v / 256)].
Proof. reflexivity. Qed.

Lemma bswap16_range (x : Z) : 0 <= bswap16 x <= 65535.
Proof.
  unfold bswap16. pose proof (Z.mod_pos_bound x 256).
  pose proof (Z.mod_pos_bound (x / 256) 256). lia.
Qed.

Lemma bswap16_involutive (x : Z) :
  0 <= x <= 65535 -> bswap16 (bswap16 x) = x.
Proof.
  intros H. unfold bswap16. Z.div_mod_to_equations. lia.
Qed.

(** [htons] before a host-order store writes the big-endian bytes. *)
Lemma encode_htons (e : endianness) (x : Z) :
  encode e 2 (htons e x) = encode BigEndian 2 x.
Proof.
  destruct e; unfold htons.
  - rewrite encode2_little, encode2_big. unfold bswap16.
    f_equal; [| f_equal]; apply byte_of_Z_congr;
      Z.div_mod_to_equations; lia.
  - rewrite !encode2_big.
    f_equal; [| f_equal]; apply byte_of_Z_congr;
      Z.div_mod_to_equations; lia.
Qed.

(** A host-order load followed by [ntohs] reads the big-endian number. *)
Lemma ntohs_decode (e : endianness) (b0 b1 : byte) :
  ntohs e (decode e [b0; b1]) = decode BigEndian [b0; b1].
Proof.
  unfold ntohs. rewrite !decode2.
  pose proof (byte_to_Z_range b0). pose proof (byte_to_Z_range b1).
  destruct e; unfold htons, bswap16; Z.div_mod_to_equations; lia.
Qed.

(** ** Ones'-complement sums *)

Lemma oc_repr_unique (S f g : Z) : oc_repr S f -> oc_repr S g -> f = g.
Proof.
  intros (Hf & (k & Hk) & Zf) (Hg & (j & Hj) & Zg).
  destruct (Z.eq_dec f 0) as [F0 | F0].
  - apply Zf in F0. apply Zg in F0. lia.
  - destruct (Z.eq_dec g 0) as [G0 | G0].
    + apply Zg in G0. apply Zf in G0. lia.
    + lia.
Qed.

Lemma oc_add_repr (S f w : Z) :
  0 <= S -> oc_repr S f -> 0 <= w <= 65535 -> oc_repr (S + w) (oc_add f w).
Proof.
  intros HS (Hf & (k & Hk) & Zf) Hw. unfold oc_add.
  assert (Hv : (f + w) mod 65536 + (f + w) / 65536
               = f + w - 65535 * ((f + w) / 65536))
    by (Z.div_mod_to_equations; lia).
  rewrite Hv. clear Hv.
  assert (Hq : (f + w) / 65536 = 0 /\ f + w <= 65535
               \/ (f + w) / 65536 = 1 /\ 65536 <= f + w)
    by (Z.div_mod_to_equations; lia).
  repeat split.
  - lia.
  - lia.
  - exists (k + (f + w) / 65536). lia.
  - intros H0. assert (F0 : f = 0) by lia. apply Zf in F0. lia.
  - intros H0. assert (S0 : S = 0) by lia.
    assert (F0 : f = 0) by (apply Zf; assumption).
    assert (w = 0) by lia. subst f w. reflexivity.
Qed.

Lemma zsum_nonneg (ws : list Z) :
  Forall (fun w => 0 <= w <= 65535) ws -> 0 <= zsum ws.
Proof.
  induction 1 as [|w ws Hw _ IH]; unfold zsum in *; cbn [fold_right] in *;
    cbv beta in *; lia.
Qed.

Lemma oc_fold_repr (ws : list Z) :
  Forall (fun w => 0 <= w <= 65535) ws ->
  forall S f, 0 <= S -> oc_repr S f ->
  oc_repr (S + zsum ws) (fold_left oc_add ws f).
Proof.
  induction 1 as [|w ws Hw Hws IH]; intros S f HS Hf; cbv beta in *.
  - cbn [zsum fold_right fold_left]. rewrite Z.add_0_r. exact Hf.
  - cbn [zsum fold_right fold_left].
    replace (S + (w + fold_right Z.add 0 ws)) with ((S + w) + zsum ws)
      by (unfold zsum; lia).
    apply IH; [lia | apply oc_add_repr; assumption].
Qed.

Lemma oc_repr_0 : oc_repr 0 0.
Proof. repeat split; try lia. exists 0. lia. Qed.

Lemma oc_sum_repr (ws : list Z) :
  Forall (fun w => 0 <= w <= 65535) ws -> oc_repr (zsum ws) (oc_sum ws).
Proof.
  intros H. unfold oc_sum.
  replace (zsum ws) with (0 + zsum ws) by lia.
  apply oc_fold_repr; [exact H | lia | exact oc_repr_0].
Qed.

Lemma land_65535 (x : Z) : Z.land x 65535 = x mod 65536.
Proof. change 65535 with (Z.ones 16). rewrite Z.land_ones by lia. reflexivity. Qed.

Lemma shiftr_16 (x : Z) : Z.shiftr x 16 = x / 65536.
Proof. rewrite Z.shiftr_div_pow2 by lia. reflexivity. Qed.

(** The two folding steps and the complement at the end of
    [icmp_checksum], on a 32-bit accumulator. *)
Lemma fold_complement (c : Z) :
  0 <= c < 2 ^ 32 ->
  exists f, oc_repr c f /\ fold_complement32 c = 65535 - f.
Proof.
  intros Hc. unfold fold_complement32.
  rewrite !land_65535, !shiftr_16.
  change (2 ^ 32) with 4294967296 in *.
  unfold Z.lnot, Z.pred.
  assert (H1 : (c / 65536 + c mod 65536) mod 4294967296
               = c / 65536 + c mod 65536)
    by (apply Z.mod_small; Z.div_mod_to_equations; lia).
  rewrite H1. clear H1.
  set (h := c / 65536). set (l := c mod 65536).
  assert (Hc' : c = 65536 * h + l /\ 0 <= l < 65536 /\ 0 <= h < 65536)
    by (unfold h, l; Z.div_mod_to_equations; lia).
  clearbody h l. destruct Hc' as (-> & Hl & Hh).
  set (q := (h + l) / 65536).
  assert (Hq : q = 0 /\ h + l < 65536 \/ q = 1 /\ 65536 <= h + l)
    by (unfold q; Z.div_mod_to_equations; lia).
  clearbody q.
  rewrite (Z.mod_small (h + l + q)) by lia.
  assert (Hf : (h + l + q) mod 65536 = h + l - 65535 * q)
    by (Z.div_mod_to_equations; lia).
  exists ((h + l + q) mod 65536). split.
  - rewrite Hf. repeat split; try lia.
    exists (h + q). lia.
  - Z.div_mod_to_equations. lia.
Qed.

(** ** Loads and stores *)

Lemma skipn_length_app (A : Type) (pre l : list A) :
  skipn (length pre) (pre ++ l) = l.
Proof. induction pre as [|a pre IH]; [reflexivity | exact IH]. Qed.

Lemma firstn_length_app (A : Type) (pre l : list A) :
  firstn (length pre) (pre ++ l) = pre.
Proof.
  induction pre as [|a pre IH]; [destruct l; reflexivity |].
  cbn [length app firstn]. rewrite IH. reflexivity.
Qed.

Lemma in_bounds_true (buf : list byte) (off : Z) (n : nat) :
  0 <= off -> off + Z.of_nat n <= Z.of_nat (length buf) ->
  in_bounds buf off n = true.
Proof.
  intros H0 H1. unfold in_bounds.
  apply andb_true_intro. split; apply Z.leb_le; assumption.
Qed.

Lemma load_at (pre bs post : list byte) :
  load (pre ++ bs ++ post) (Z.of_nat (length pre)) (length bs) = Ok bs.
Proof.
  unfold load. rewrite in_bounds_true by (rewrite ?length_app; lia).
  rewrite Nat2Z.id, skipn_length_app, firstn_length_app. reflexivity.
Qed.

Lemma list_ind2 (A : Type) (P : list A -> Prop) :
  P [] -> (forall a, P [a]) -> (forall a b l, P l -> P (a :: b :: l)) ->
  forall l, P l.
Proof.
  intros H0 H1 H2 l.
  enough (H : P l /\ forall a, P (a :: l)) by apply H.
  induction l as [|b l [IHl IHa]]; split; auto.
Qed.

Lemma words16_range (e : endianness) (bs : list byte) :
  Forall (fun w => 0 <= w <= 65535) (words16 e bs).
Proof.
  induction bs as [| a | a b l IH] using list_ind2; cbn [words16].
  - constructor.
  - constructor; [apply decode2_range | constructor].
  - constructor; [apply decode2_range | exact IH].
Qed.

Lemma words16_length (e : endianness) (bs : list byte) :
  2 * Z.of_nat (length (words16 e bs)) <= Z.of_nat (length bs) + 1.
Proof.
  induction bs as [| a | a b l IH] using list_ind2;
    cbn [words16 length] in *; lia.
Qed.

Lemma zsum_bound (ws : list Z) :
  Forall (fun w => 0 <= w <= 65535) ws ->
  0 <= zsum ws <= 65535 * Z.of_nat (length ws).
Proof.
  induction 1 as [|w ws Hw _ IH]; unfold zsum in *;
    cbn [fold_right length] in *; cbv beta in *; lia.
Qed.

(** ** The summation loop *)

Lemma sum_words_app (e : endianness) (n : nat) :
  forall (pre body post : list byte) (acc : Z),
    length body = (2 * n)%nat ->
    0 <= acc < 2 ^ 32 ->
    sum_words e (pre ++ body ++ post) (Z.of_nat (length pre)) n acc
    = Ok ((acc + zsum (words16 e body)) mod 2 ^ 32).
Proof.
  induction n as [|n IH]; intros pre body post acc HL Hacc.
  - destruct body; [| discriminate].
    cbn [sum_words words16 zsum fold_right].
    rewrite Z.add_0_r, Z.mod_small by exact Hacc. reflexivity.
  - destruct body as [|b0 [|b1 body]]; try (cbn in HL; lia).
    cbn [sum_words words16]. unfold load16.
    change ((b0 :: b1 :: body) ++ post) with ([b0; b1] ++ (body ++ post)).
    change 2%nat with (length [b0; b1]) at 1.
    rewrite load_at. cbn [bind].
    replace (Z.of_nat (length pre) + 2) with (Z.of_nat (length (pre ++ [b0; b1])))
      by (rewrite length_app, Nat2Z.inj_add; reflexivity).
    rewrite (app_assoc pre [b0; b1]).
    rewrite IH.
    + f_equal. unfold zsum. cbn [fold_right].
      rewrite Zplus_mod_idemp_l. f_equal. lia.
    + cbn [length] in HL. lia.
    + apply Z.mod_pos_bound. lia.
Qed.

Lemma sum_words_whole (e : endianness) (buf : list byte) (n : nat) :
  length buf = (2 * n)%nat ->
  sum_words e buf 0 n 0 = Ok (zsum (words16 e buf) mod 2 ^ 32).
Proof.
  intros HL.
  pose proof (sum_words_app e n [] buf [] 0 HL ltac:(lia)) as H.
  cbn [app length Z.of_nat] in H. rewrite app_nil_r in H. exact H.
Qed.

(** On a buffer of even length [icmp_checksum] folds and complements the
    word sum, taken modulo 2^32. *)
Lemma icmp_checksum_even_raw (e : endianness) (buf : list byte) (n : nat) :
  length buf = (2 * n)%nat ->
  icmp_checksum e buf (Z.of_nat (length buf))
  = Ok (fold_complement32 (zsum (words16 e buf) mod 2 ^ 32)).
Proof.
  intros HL. unfold icmp_checksum.
  assert (Hrem : (Z.rem (Z.of_nat (length buf)) 2 =? 1) = false).
  { apply Z.eqb_neq. rewrite Z.rem_mod_nonneg by lia.
    rewrite HL, Nat2Z.inj_mul. change (Z.of_nat 2) with 2.
    rewrite Z.mul_comm, Z.mod_mul by lia. lia. }
  rewrite Hrem. cbn [bind].
  replace (Z.to_nat ((Z.of_nat (length buf) + 1) / 2)) with n.
  2:{ rewrite HL, Nat2Z.inj_mul. change (Z.of_nat 2) with 2.
      replace ((2 * Z.of_nat n + 1) / 2) with (Z.of_nat n)
        by (Z.div_mod_to_equations; lia).
      rewrite Nat2Z.id. reflexivity. }
  rewrite (sum_words_whole e buf n HL). reflexivity.
Qed.

Lemma icmp_checksum_even_length (e : endianness) (buf : list byte) :
  Nat.even (length buf) = true ->
  icmp_checksum e buf (Z.of_nat (length buf))
  = Ok (fold_complement32 (zsum (words16 e buf) mod 2 ^ 32)).
Proof.
  intros HE. apply Nat.even_spec in HE. destruct HE as (n & Hn).
  exact (icmp_checksum_even_raw e buf n Hn).
Qed.

(** When the word sum fits the 32-bit accumulator, that is the complement
    of the ones'-complement sum. *)
Lemma icmp_checksum_even (e : endianness) (buf : list byte) (n : nat) :
  length buf = (2 * n)%nat ->
  zsum (words16 e buf) < 2 ^ 32 ->
  icmp_checksum e buf (Z.of_nat (length buf))
  = Ok (65535 - oc_sum (words16 e buf)).
Proof.
  intros HL Hsum. rewrite (icmp_checksum_even_raw e buf n HL).
  pose proof (words16_range e buf) as HR.
  pose proof (zsum_nonneg _ HR) as H0.
  rewrite (Z.mod_small (zsum (words16 e buf)) (2 ^ 32))
    by (split; assumption).
  destruct (fold_complement (zsum (words16 e buf)) (conj H0 Hsum))
    as (f & Hf & ->).
  f_equal. f_equal.
  apply (oc_repr_unique _ _ _ Hf (oc_sum_repr _ HR)).
Qed.

(** ** Byte-order independence of the checksum *)

Lemma bswap16_decode (b0 b1 : byte) :
  decode BigEndian [b0; b1] = bswap16 (decode LittleEndian [b0; b1]).
Proof.
  rewrite !decode2. unfold bswap16.
  pose proof (byte_to_Z_range b0). pose proof (byte_to_Z_range b1).
  Z.div_mod_to_equations. lia.
Qed.

Lemma zsum_words16_swap (bs : list byte) :
  0 <= zsum (words16 LittleEndian bs) /\
  0 <= zsum (words16 BigEndian bs) /\
  (exists k, 256 * zsum (words16 LittleEndian bs)
             = zsum (words16 BigEndian bs) + 65535 * k) /\
  (zsum (words16 LittleEndian bs) = 0 <-> zsum (words16 BigEndian bs) = 0).
Proof.
  induction bs as [| a | a b l IH] using list_ind2.
  - cbn. repeat split; try lia. exists 0. lia.
  - cbn [words16]. unfold zsum. cbn [fold_right]. rewrite !decode2.
    pose proof (byte_to_Z_range a). change (byte_to_Z "000"%byte) with 0.
    repeat split; try lia. exists 0. lia.
  - destruct IH as (HL & HB & (k & Hk) & Hz).
    cbn [words16]. unfold zsum in *. cbn [fold_right]. rewrite !decode2.
    pose proof (byte_to_Z_range a). pose proof (byte_to_Z_range b).
    repeat split; try lia. exists (k + byte_to_Z b). lia.
Qed.

Lemma oc_sum_swap (bs : list byte) :
  oc_sum (words16 BigEndian bs) = bswap16 (oc_sum (words16 LittleEndian bs)).
Proof.
  pose proof (oc_sum_repr _ (words16_range BigEndian bs)) as HB.
  pose proof (oc_sum_repr _ (words16_range LittleEndian bs)) as HL.
  destruct (zsum_words16_swap bs) as (PL & PB & (k & Hk) & Hz).
  apply (oc_repr_unique _ _ _ HB).
  destruct HL as (Hf & (j & Hj) & Zf).
  set (f := oc_sum (words16 LittleEndian bs)) in *.
  assert (Hs : bswap16 f = 256 * f - 65535 * (f / 256))
    by (unfold bswap16; Z.div_mod_to_equations; lia).
  repeat split.
  - apply bswap16_range.
  - apply bswap16_range.
  - exists (f / 256 + 256 * j - k). lia.
  - intros H0. apply Hz. apply Zf. rewrite Hs in H0.
    Z.div_mod_to_equations. lia.
  - intros H0. apply Hz in H0. apply Zf in H0. rewrite H0. reflexivity.
Qed.

Lemma bswap16_complement (x : Z) :
  0 <= x <= 65535 -> bswap16 (65535 - x) = 65535 - bswap16 x.
Proof. intros H. unfold bswap16. Z.div_mod_to_equations. lia. Qed.

Lemma encode_little_swap (x : Z) :
  encode LittleEndian 2 x = encode BigEndian 2 (bswap16 x).
Proof.
  rewrite encode2_little, encode2_big. unfold bswap16.
  f_equal; [| f_equal]; apply byte_of_Z_congr; Z.div_mod_to_equations; lia.
Qed.

Lemma oc_sum_range (e : endianness) (bs : list byte) :
  0 <= oc_sum (words16 e bs) <= 65535.
Proof. apply (oc_sum_repr _ (words16_range e bs)). Qed.

(** The bytes a host-order store of the host-order checksum leaves in
    memory are the network-order bytes of the Internet checksum. *)
Lemma checksum_bytes_network (e : endianness) (bs : list byte) :
  encode e 2 (65535 - oc_sum (words16 e bs))
  = encode BigEndian 2 (inet_checksum bs).
Proof.
  unfold inet_checksum. destruct e; [| reflexivity].
  rewrite encode_little_swap, bswap16_complement, <- oc_sum_swap
    by apply oc_sum_range.
  reflexivity.
Qed.

Lemma zsum_words16_fits (e : endianness) (bs : list byte) :
  Z.of_nat (length bs) <= 131074 -> zsum (words16 e bs) < 2 ^ 32.
Proof.
  intros HL. pose proof (zsum_bound _ (words16_range e bs)) as HS.
  pose proof (words16_length e bs) as HW.
  change (2 ^ 32) with 4294967296. lia.
Qed.

(** ** The codec *)

Lemma length16 (A : Type) (l : list A) :
  length l = 16%nat ->
  exists a0 a1 a2 a3 a4 a5 a6 a7 a8 a9 a10 a11 a12 a13 a14 a15,
    l = [a0; a1; a2; a3; a4; a5; a6; a7; a8; a9; a10; a11; a12; a13; a14; a15].
Proof.
  intros H.
  do 16 (destruct l as [|? l]; [discriminate H |]).
  destruct l; [| discriminate H].
  repeat eexists.
Qed.

(** The member stores of [icmp_serialize] leave the wire layout with a
    zero checksum field, whatever the buffer held. *)
Lemma icmp_serialize_unfold (e : endianness) (req : icmp_t) (buf : list byte) :
  length buf = 16%nat ->
  icmp_serialize e req buf 16
  = (checksum <- icmp_checksum e (wire_body e req [x00; x00]) 16 ;;
     Ok (wire_body e req (encode e 2 checksum))).
Proof.
  intros HL.
  destruct (length16 _ buf HL)
    as (a0 & a1 & a2 & a3 & a4 & a5 & a6 & a7 & a8 & a9 & a10 & a11 & a12
        & a13 & a14 & a15 & ->).
  unfold icmp_serialize, store16, store64, store8. rewrite !encode_htons.
  destruct e; reflexivity.
Qed.

Lemma wire_body_length (e : endianness) (req : icmp_t) (ck : list byte) :
  length ck = 2%nat -> length (wire_body e req ck) = 16%nat.
Proof.
  intros H. unfold wire_body.
  rewrite !length_app, !encode_length, H. reflexivity.
Qed.

Lemma icmp_checksum_wire_body (e : endianness) (req : icmp_t) :
  icmp_checksum e (wire_body e req [x00; x00]) 16
  = Ok (65535 - oc_sum (words16 e (wire_body e req [x00; x00]))).
Proof.
  pose proof (wire_body_length e req [x00; x00] eq_refl) as HL.
  replace 16 with (Z.of_nat (length (wire_body e req [x00; x00])))
    by (rewrite HL; reflexivity).
  apply (icmp_checksum_even e _ 8); [exact HL |].
  apply zsum_words16_fits. rewrite HL. cbn. lia.
Qed.

Lemma icmp_serialize_ok (e : endianness) (req : icmp_t) (buf : list byte) :
  length buf = 16%nat ->
  icmp_serialize e req buf 16 = Ok (wire_format e req).
Proof.
  intros HL. rewrite (icmp_serialize_unfold e req buf HL).
  rewrite icmp_checksum_wire_body. cbn [bind].
  unfold wire_format. rewrite checksum_bytes_network. reflexivity.
Qed.

Lemma load_in (buf : list byte) (off : Z) (n : nat) :
  0 <= off -> off + Z.of_nat n <= Z.of_nat (length buf) ->
  load buf off n = Ok (field buf (Z.to_nat off) n).
Proof.
  intros H0 H1. unfold load. rewrite in_bounds_true by assumption. reflexivity.
Qed.

(** The raw copy [*reply = *(const icmp_t* )buf] of at least 16 bytes. *)
Lemma load_icmp_in (e : endianness) (buf : list byte) :
  16 <= Z.of_nat (length buf) ->
  load_icmp e buf
  = Ok (mk_icmp (le_decode (field buf 0 1)) (le_decode (field buf 1 1))
          (decode e (field buf 2 2)) (decode e (field buf 4 2))
          (decode e (field buf 6 2)) (decode e (field buf 8 8))).
Proof.
  intros HL. unfold load_icmp, load8, load16, load64.
  unfold off_type, off_code, off_checksum, off_id, off_seq, off_ts.
  rewrite !load_in by (cbn; lia). reflexivity.
Qed.

Lemma field_length (bs : list byte) (off n : nat) :
  (off + n <= length bs)%nat -> length (field bs off n) = n.
Proof.
  intros H. unfold field. rewrite length_firstn, length_skipn. lia.
Qed.

Lemma field2 (bs : list byte) (off : nat) :
  (off + 2 <= length bs)%nat -> exists x y, field bs off 2 = [x; y].
Proof.
  intros H. pose proof (field_length bs off 2 H) as HL.
  destruct (field bs off 2) as [|x [|y [|z l]]]; try discriminate HL.
  exists x, y. reflexivity.
Qed.

Lemma store16_zero (e : endianness) (bs : list byte) :
  4 <= Z.of_nat (length bs) ->
  store16 e bs off_checksum 0 = Ok (zero_checksum_field bs).
Proof.
  intros H. unfold store16, store, off_checksum.
  replace (encode e 2 0) with [x00; x00] by (destruct e; reflexivity).
  rewrite in_bounds_true by (cbn; lia). reflexivity.
Qed.

Lemma zero_checksum_field_length (bs : list byte) :
  (4 <= length bs)%nat -> length (zero_checksum_field bs) = length bs.
Proof.
  intros H. unfold zero_checksum_field.
  rewrite !length_app, length_firstn, length_skipn. cbn [length]. lia.
Qed.

Lemma sum_words_defined (e : endianness) (buf : list byte) (n : nat) :
  forall i acc,
    0 <= i -> i + 2 * Z.of_nat n <= Z.of_nat (length buf) ->
    exists c, sum_words e buf i n acc = Ok c.
Proof.
  induction n as [|n IH]; intros i acc Hi Hn.
  - exists acc. reflexivity.
  - cbn [sum_words]. unfold load16. rewrite load_in by lia. cbn [bind].
    apply IH; lia.
Qed.

(** [icmp_checksum] returns, with a 16-bit value, on every buffer of at
    least two bytes. *)
Lemma icmp_checksum_defined (e : endianness) (buf : list byte) (len : Z) :
  2 <= len <= Z.of_nat (length buf) ->
  exists c, icmp_checksum e buf len = Ok c /\ 0 <= c <= 65535.
Proof.
  intros H. unfold icmp_checksum.
  destruct (Z.rem len 2 =? 1) eqn:R.
  - unfold load8. rewrite load_in by lia. cbn [bind].
    destruct (sum_words_defined e buf (Z.to_nat ((len - 1 + 1) / 2)) 0
                (decode e [byte_of_Z (le_decode (field buf (Z.to_nat (len - 1 - 1)) 1)); x00]))
      as (c & ->).
    + lia.
    + rewrite Z2Nat.id by (Z.div_mod_to_equations; lia).
      Z.div_mod_to_equations. lia.
    + cbn [bind]. eexists. split; [reflexivity |].
      rewrite land_65535. Z.div_mod_to_equations. lia.
  - cbn [bind].
    destruct (sum_words_defined e buf (Z.to_nat ((len + 1) / 2)) 0 0)
      as (c & ->).
    + lia.
    + apply Z.eqb_neq in R. rewrite Z.rem_mod_nonneg in R by lia.
      rewrite Z2Nat.id by (Z.div_mod_to_equations; lia).
      Z.div_mod_to_equations. lia.
    + cbn [bind]. eexists. split; [reflexivity |].
      rewrite land_65535. Z.div_mod_to_equations. lia.
Qed.

Lemma checksum_compare (e : endianness) (x y : byte) (c : Z) :
  0 <= c <= 65535 ->
  (decode e [x; y] =? c)
  = (decode BigEndian (encode e 2 c) =? decode BigEndian [x; y]).
Proof.
  intros Hc. destruct e.
  - rewrite encode_little_swap, decode_encode, (bswap16_decode x y).
    pose proof (decode2_range LittleEndian x y) as Hd.
    pose proof (bswap16_range c) as Hs.
    change (256 ^ Z.of_nat 2) with 65536. rewrite Z.mod_small by lia.
    destruct (decode LittleEndian [x; y] =? c) eqn:E.
    + apply Z.eqb_eq in E. rewrite E. symmetry. apply Z.eqb_refl.
    + symmetry. apply Z.eqb_neq. intros HE. apply Z.eqb_neq in E. apply E.
      rewrite <- (bswap16_involutive c), HE, bswap16_involutive by lia.
      reflexivity.
  - rewrite decode_encode. change (256 ^ Z.of_nat 2) with 65536.
    rewrite Z.mod_small by lia. apply Z.eqb_sym.
Qed.

Lemma to_size_t_nonneg (len : Z) : 0 <= len < 2 ^ 31 -> to_size_t len = len.
Proof.
  intros H. unfold to_size_t. apply Z.mod_small.
  change (2 ^ 31) with 2147483648 in H.
  change (2 ^ 64) with 18446744073709551616. lia.
Qed.

(** [parse_reply] on a buffer that holds [len] bytes: it returns, with 0
    when its checks pass ([valid_reply]) and -1 otherwise. *)
Lemma parse_reply_spec (e : endianness) (reply0 : icmp_t) (buf : list byte)
    (len : Z) :
  0 <= len <= Z.of_nat (length buf) -> len < 2 ^ 31 ->
  exists r,
    parse_reply e reply0 buf len
    = Ok (if valid_reply e buf len then 0 else -1, r)
    /\ (valid_reply e buf len = true -> r = parsed_reply e buf).
Proof.
  intros HL Hint. unfold parse_reply, valid_reply.
  rewrite to_size_t_nonneg by lia. unfold sizeof_icmp_t.
  destruct (len <? 16) eqn:G.
  - apply Z.ltb_lt in G.
    replace (16 <=? len) with false by (symmetry; apply Z.leb_gt; exact G).
    exists reply0. split; [reflexivity | discriminate].
  - apply Z.ltb_ge in G.
    replace (16 <=? len) with true by (symmetry; apply Z.leb_le; exact G).
    rewrite load_icmp_in by lia.
    cbn [bind icmp_type icmp_code icmp_cksum icmp_id icmp_seq icmp_ts andb].
    destruct (le_decode (field buf 0 1) =? 0) eqn:T;
      [| eexists; split; [reflexivity | discriminate]].
    destruct (le_decode (field buf 1 1) =? 0) eqn:C;
      [| eexists; split; [reflexivity | discriminate]].
    cbn [negb orb andb].
    unfold copy_of. rewrite to_size_t_nonneg by lia.
    replace (len <=? Z.of_nat (length buf)) with true
      by (symmetry; apply Z.leb_le; lia).
    cbn [bind].
    assert (HC : length (firstn (Z.to_nat len) buf) = Z.to_nat len)
      by (rewrite length_firstn; lia).
    rewrite store16_zero by lia. cbn [bind].
    destruct (icmp_checksum_defined e
                (zero_checksum_field (firstn (Z.to_nat len) buf)) len)
      as (c & -> & Hc).
    { rewrite zero_checksum_field_length by lia. lia. }
    cbn [bind].
    destruct (field2 buf 2) as (x2 & y2 & F2); [lia |].
    destruct (field2 buf 4) as (x4 & y4 & F4); [lia |].
    destruct (field2 buf 6) as (x6 & y6 & F6); [lia |].
    unfold parsed_reply. rewrite F2, F4, F6.
    rewrite <- (checksum_compare e x2 y2 c Hc).
    destruct (decode e [x2; y2] =? c);
      [| eexists; split; [reflexivity | discriminate]].
    cbn [negb]. eexists. split; [reflexivity |]. intros _.
    apply Z.eqb_eq in T, C. rewrite T, C, !ntohs_decode. reflexivity.
Qed.

Lemma wire_body_fields (e : endianness) (req : icmp_t) (c0 c1 : byte) :
  let w := wire_body e req [c0; c1] in
  field w 0 1 = [byte_of_Z (icmp_type req)]
  /\ field w 1 1 = [byte_of_Z (icmp_code req)]
  /\ field w 2 2 = [c0; c1]
  /\ field w 4 2 = encode BigEndian 2 (icmp_id req)
  /\ field w 6 2 = encode BigEndian 2 (icmp_seq req)
  /\ field w 8 8 = encode e 8 (icmp_ts req)
  /\ zero_checksum_field w = wire_body e req [x00; x00]
  /\ firstn 16 w = w.
Proof. destruct e; repeat split. Qed.

Lemma valid_wire_format (e : endianness) (req : icmp_t) :
  icmp_type req = 0 -> icmp_code req = 0 ->
  valid_reply e (wire_format e req) 16 = true.
Proof.
  intros HT HC. unfold valid_reply, wire_format.
  rewrite encode2_big.
  destruct (wire_body_fields e req
              (byte_of_Z (inet_checksum (wire_body e req [x00; x00]) / 256))
              (byte_of_Z (inet_checksum (wire_body e req [x00; x00]))))
    as (F0 & F1 & F2 & _ & _ & _ & FZ & FW).
  change (Z.to_nat 16) with 16%nat.
  rewrite F0, F1, F2, FW, FZ, HT, HC, icmp_checksum_wire_body.
  rewrite checksum_bytes_network, encode2_big.
  rewrite !Z.eqb_refl. reflexivity.
Qed.

(** ** Claims on the checksum and the codec *)

(** C6. [icmp_serialize], given any request and a 16-byte buffer, returns
    exactly the wire layout: byte 0 the type, byte 1 the code, bytes 2-3
    the Internet checksum of the 16 bytes taken with a zero checksum field,
    in network byte order, bytes 4-5 the identifier and bytes 6-7 the
    sequence number in network byte order, bytes 8-15 the timestamp in the
    byte order of the host, whatever that is. *)
Theorem icmp_serialize_wire_layout (e : endianness) (req : icmp_t)
    (buf : list byte) :
  length buf = 16%nat ->
  icmp_serialize e req buf 16
  = Ok ([byte_of_Z (icmp_type req); byte_of_Z (icmp_code req)]
          ++ encode BigEndian 2
               (inet_checksum (wire_body e req [x00; x00]))
          ++ encode BigEndian 2 (icmp_id req)
          ++ encode BigEndian 2 (icmp_seq req)
          ++ encode e 8 (icmp_ts req)).
Proof.
  intros HL. rewrite (icmp_serialize_ok e req buf HL). reflexivity.
Qed.

Lemma icmp_serialize_wire_layout_witness :
  icmp_serialize LittleEndian (mk_icmp 8 0 0 4660 3 1700000000)
    (repeat x00 16) 16
  = Ok (bytes [8; 0; 145; 114; 18; 52; 0; 3; 0; 241; 83; 101; 0; 0; 0; 0]).
Proof.
  exact (icmp_serialize_wire_layout LittleEndian
           (mk_icmp 8 0 0 4660 3 1700000000) (repeat x00 16) eq_refl).
Defined.

(** C4, as amended. For every [icmp_t] record whose type and code are 0
    (an echo reply), with members in the range of their C types,
    serializing it and parsing the 16 bytes back with [parse_reply]
    returns 0 and recovers the identifier, the sequence number and the
    timestamp. *)
Theorem roundtrip_type0 (e : endianness) (req reply0 : icmp_t)
    (buf : list byte) :
  length buf = 16%nat ->
  icmp_type req = 0 -> icmp_code req = 0 ->
  0 <= icmp_id req <= 65535 ->
  0 <= icmp_seq req <= 65535 ->
  0 <= icmp_ts req < 2 ^ 64 ->
  exists pkt reply,
    icmp_serialize e req buf 16 = Ok pkt
    /\ parse_reply e reply0 pkt 16 = Ok (0, reply)
    /\ icmp_id reply = icmp_id req
    /\ icmp_seq reply = icmp_seq req
    /\ icmp_ts reply = icmp_ts req.
Proof.
  intros HL HT HC Hid Hseq Hts.
  exists (wire_format e req).
  pose proof (wire_body_length e req
                (encode BigEndian 2
                   (inet_checksum (wire_body e req [x00; x00])))
                eq_refl) as HW.
  fold (wire_format e req) in HW.
  destruct (parse_reply_spec e reply0 (wire_format e req) 16) as (r & HP & HR).
  { rewrite HW. cbn. lia. }
  { reflexivity. }
  rewrite (valid_wire_format e req HT HC) in HP.
  specialize (HR (valid_wire_format e req HT HC)).
  exists r. split; [apply icmp_serialize_ok; exact HL |].
  split; [exact HP |].
  subst r. unfold parsed_reply, wire_format.
  rewrite (encode2_big (inet_checksum _)).
  destruct (wire_body_fields e req
              (byte_of_Z (inet_checksum (wire_body e req [x00; x00]) / 256))
              (byte_of_Z (inet_checksum (wire_body e req [x00; x00]))))
    as (_ & _ & _ & F4 & F6 & F8 & _ & _).
  cbn [icmp_id icmp_seq icmp_ts].
  rewrite F4, F6, F8, !decode_encode.
  change (256 ^ Z.of_nat 2) with 65536.
  change (256 ^ Z.of_nat 8) with (2 ^ 64).
  rewrite !Z.mod_small by lia. repeat split.
Qed.

Lemma roundtrip_type0_witness :
  exists pkt reply,
    icmp_serialize LittleEndian (mk_icmp 0 0 0 4660 3 1700000000)
      (repeat x00 16) 16 = Ok pkt
    /\ parse_reply LittleEndian no_reply pkt 16 = Ok (0, reply)
    /\ icmp_id reply = 4660
    /\ icmp_seq reply = 3
    /\ icmp_ts reply = 1700000000.
Proof.
  apply (roundtrip_type0 LittleEndian (mk_icmp 0 0 0 4660 3 1700000000)
           no_reply (repeat x00 16));
    cbn; try reflexivity; lia.
Defined.

(** C4 as stated fails: an echo request has type 8, and [parse_reply]
    rejects what [icmp_serialize] made of it. *)
Lemma roundtrip_echo_request_rejected :
  exists pkt,
    icmp_serialize LittleEndian (mk_icmp 8 0 0 4660 3 1700000000)
      (repeat x00 16) 16 = Ok pkt
    /\ parse_reply LittleEndian no_reply pkt 16
       = Ok (-1, mk_icmp 8 0 29329 13330 768 1700000000).
Proof. eexists. split; reflexivity. Qed.

(** [on_recv], the caller, drops every datagram [parse_reply] rejects: no
    output, no change of state. *)
Lemma on_recv_drops_rejected (e : endianness) (pid : Z) (dgram : list byte)
    (nrecv : Z) (now : float) (st : session) (r : icmp_t) :
  length dgram = 1500%nat -> nrecv <> -1 ->
  parse_reply e no_reply (skipn 20 dgram) (nrecv - 20) = Ok (-1, r) ->
  on_recv e pid dgram nrecv now st = Ok (st, []).
Proof.
  intros HL HN HP. unfold on_recv.
  replace (nrecv =? -1) with false by (symmetry; apply Z.eqb_neq; exact HN).
  unfold load8, TTL_OFFSET, IPV4_HEADER_SIZE.
  rewrite load_in by (rewrite ?HL; cbn; lia). cbn [bind].
  change (Z.to_nat 20) with 20%nat. rewrite HP. reflexivity.
Qed.

(** C5: [parse_reply] does not return -1 on every packet that fails one of
    the three checks. A 17-byte packet, the valid reply of 16 bytes followed
    by one byte, carries the checksum field 39282 while the Internet
    checksum of the packet with that field zeroed is 37490: the checksum
    check fails, and [parse_reply] returns 0 with the converted record, on
    either host ([icmp_checksum] leaves the last byte of an odd-length
    buffer out of its sum, so what it recomputes is not the Internet
    checksum). With [len = -10], below 16, the length guard does not
    reject and [parse_reply] does not return: the copy of [len] bytes
    leaves the buffer. *)
Theorem parse_reply_misses_rejections :
  let pkt :=
    bytes [0; 0; 153; 114; 18; 52; 0; 3; 0; 241; 83; 101; 0; 0; 0; 0; 7] in
  inet_checksum (zero_checksum_field pkt) = 37490
  /\ decode BigEndian (field pkt 2 2) = 39282
  /\ inet_valid pkt 17 = false
  /\ parse_reply LittleEndian no_reply pkt 17
     = Ok (0, mk_icmp 0 0 39282 4660 3 1700000000)
  /\ parse_reply BigEndian no_reply pkt 17
     = Ok (0, mk_icmp 0 0 39282 4660 3 67927162644070400)
  /\ parse_reply LittleEndian no_reply (repeat x00 1480) (-10) = Fault.
Proof. vm_compute. repeat split. Qed.

(** C8: evaluation at an odd length. On the three bytes 1, 2, 3
    [icmp_checksum] takes the byte before the last one (2) for the final
    word, not the last one (3): the result differs from the checksum of
    the buffer completed by a zero byte. *)
Theorem icmp_checksum_odd_length :
  icmp_checksum LittleEndian (bytes [1; 2; 3]) 3 = Ok 65020
  /\ icmp_checksum LittleEndian (bytes [1; 2; 3; 0]) 4 = Ok 65019
  /\ icmp_checksum LittleEndian (bytes [1; 2; 2; 0]) 4 = Ok 65020
  /\ icmp_checksum LittleEndian (bytes [1]) 1 = Fault.
Proof. repeat split. Qed.

(** C9: evaluation at a datagram of 10 bytes. The length handed to
    [parse_reply] is -10; converted to [size_t] for the comparison with
    [sizeof(icmp_t)] it is not below 16, the guard does not reject, the
    members are read from the bytes after the datagram, and the copy of
    [len] bytes faults. With a stale type byte of 8 the rejection comes
    from the type check, after the members were read. *)
Theorem short_datagram_passes_length_guard :
  (to_size_t (10 - IPV4_HEADER_SIZE) <? sizeof_icmp_t) = false
  /\ parse_reply LittleEndian no_reply (repeat x00 1480) (-10) = Fault
  /\ on_recv LittleEndian 4660 (repeat x00 1500) 10 1000%float initial
     = Fault
  /\ parse_reply LittleEndian no_reply (bytes [8; 0; 7; 7] ++ repeat x00 1476)
       (-10)
     = Ok (-1, mk_icmp 8 0 1799 0 0 0).
Proof. repeat split; vm_compute; reflexivity. Qed.

Lemma oc_repr_complement (S f g : Z) :
  0 <= S -> oc_repr S f -> oc_repr (S + (65535 - f)) g -> g = 65535.
Proof.
  intros HS (Hf & (k & Hk) & Zf) (Hg & (j & Hj) & Zg).
  destruct (Z.eq_dec g 0) as [G0 | G0]; [| lia].
  apply Zg in G0. assert (F0 : f = 0) by (apply Zf; lia). lia.
Qed.

Lemma oc_sum_all_ones (e e' : endianness) (bs : list byte) :
  oc_sum (words16 e bs) = 65535 -> oc_sum (words16 e' bs) = 65535.
Proof.
  intros H. pose proof (oc_sum_swap bs) as HS.
  pose proof (oc_sum_range LittleEndian bs) as HR.
  destruct e, e'; try exact H.
  - rewrite HS, H. reflexivity.
  - rewrite H in HS.
    rewrite <- (bswap16_involutive (oc_sum (words16 LittleEndian bs))),
      <- HS by exact HR.
    reflexivity.
Qed.

(** C3, as amended. For every buffer of even length, of at least 4 and at
    most 131074 bytes, whose checksum field (bytes 2-3) is zero:
    [icmp_checksum] returns, the store into the checksum field succeeds,
    and the 16-bit words of the resulting buffer, read in either byte
    order, sum with end-around carry to exactly 0xFFFF. *)
Theorem checksum_self_consistent (e e' : endianness) (buf : list byte) :
  Nat.even (length buf) = true ->
  4 <= Z.of_nat (length buf) <= 131074 ->
  field buf 2 2 = [x00; x00] ->
  checksum_self_check e e' buf = Ok 65535.
Proof.
  intros HE HL HF.
  apply Nat.even_spec in HE. destruct HE as (n & Hn).
  pose proof (zsum_words16_fits e buf ltac:(lia)) as Hfits.
  unfold checksum_self_check.
  rewrite (icmp_checksum_even e buf n Hn Hfits). cbn [bind].
  pose proof (oc_sum_repr _ (words16_range e buf)) as Hrepr.
  pose proof (zsum_nonneg _ (words16_range e buf)) as Hnn.
  set (f := oc_sum (words16 e buf)) in *.
  destruct buf as [|b0 [|b1 [|z0 [|z1 rest]]]]; try (cbn in HL; lia).
  injection HF as -> ->.
  unfold store16, store, off_checksum.
  rewrite in_bounds_true by (rewrite ?encode_length; cbn [length] in *; lia).
  cbn [bind]. rewrite encode_length.
  cbn [Z.to_nat Pos.to_nat Pos.iter_op Nat.add firstn skipn app].
  f_equal. apply (oc_sum_all_ones e e').
  assert (Hc : exists c0 c1, encode e 2 (65535 - f) = [c0; c1]
                             /\ decode e [c0; c1] = 65535 - f).
  { pose proof (decode_encode e 2 (65535 - f)) as HD.
    change (256 ^ Z.of_nat 2) with 65536 in HD.
    rewrite Z.mod_small in HD by (destruct Hrepr as (? & _); lia).
    destruct e; eexists; eexists; (split; [reflexivity | exact HD]). }
  destruct Hc as (c0 & c1 & -> & Hc).
  cbn [app words16].
  apply (oc_repr_complement (zsum (words16 e (b0 :: b1 :: x00 :: x00 :: rest))) f);
    [exact Hnn | exact Hrepr |].
  replace (zsum (words16 e (b0 :: b1 :: x00 :: x00 :: rest)) + (65535 - f))
    with (zsum (decode e [b0; b1] :: decode e [c0; c1] :: words16 e rest)).
  - apply oc_sum_repr. constructor; [apply decode2_range |].
    constructor; [apply decode2_range | apply words16_range].
  - cbn [words16]. unfold zsum. cbn [fold_right]. rewrite Hc.
    replace (decode e [x00; x00]) with 0 by (destruct e; reflexivity). lia.
Qed.

Lemma checksum_self_consistent_witness :
  checksum_self_check LittleEndian BigEndian
    (bytes [8; 0; 0; 0; 18; 52; 0; 3; 0; 241; 83; 101; 0; 0; 0; 0])
  = Ok 65535.
Proof.
  apply (checksum_self_consistent LittleEndian BigEndian
           (bytes [8; 0; 0; 0; 18; 52; 0; 3; 0; 241; 83; 101; 0; 0; 0; 0]));
    [reflexivity | cbn; lia | reflexivity].
Defined.


(** C3 as stated fails where the 32-bit accumulator overflows: on two zero
    words followed by 65538 words 0xFFFF the word sum is 2^32 + 65534, the
    carry out of bit 31 is lost, and the self-check yields 1. *)
Lemma checksum_self_check_overflow :
  let buf := repeat x00 4 ++ repeat xff (N.to_nat 131076) in
  field buf 2 2 = [x00; x00]
  /\ checksum_self_check LittleEndian LittleEndian buf = Ok 1.
Proof.
  intros buf. split; [vm_compute; reflexivity |].
  unfold checksum_self_check.
  rewrite (icmp_checksum_even_length LittleEndian buf)
    by (vm_compute; reflexivity).
  replace (fold_complement32 (zsum (words16 LittleEndian buf) mod 2 ^ 32))
    with 1 by (vm_compute; reflexivity).
  vm_compute. reflexivity.
Qed.

(** ** The probe window *)

Lemma send_req_ok (e : endianness) (req : icmp_t) :
  send_req e req = Ok (wire_format e req).
Proof. unfold send_req. apply icmp_serialize_ok. reflexivity. Qed.

Lemma wire_seq_format (e : endianness) (req : icmp_t) :
  wire_seq (wire_format e req) = icmp_seq req mod 65536.
Proof.
  unfold wire_seq, wire_format. rewrite (encode2_big (inet_checksum _)).
  destruct (wire_body_fields e req
              (byte_of_Z (inet_checksum (wire_body e req [x00; x00]) / 256))
              (byte_of_Z (inet_checksum (wire_body e req [x00; x00]))))
    as (_ & _ & _ & _ & F6 & _).
  rewrite F6, decode_encode. reflexivity.
Qed.

Lemma times5 (times : list float) :
  length times = 5%nat ->
  exists t0 t1 t2 t3 t4, times = [t0; t1; t2; t3; t4].
Proof.
  intros H. do 5 (destruct times as [|? times]; [discriminate H |]).
  destruct times; [| discriminate H]. repeat eexists.
Qed.

Lemma slot_get_defined (times : list float) (index : Z) :
  length times = 5%nat -> 0 <= index < TIMEOUT ->
  exists t, slot_get times index = Ok t.
Proof.
  intros HL HI. destruct (times5 times HL) as (t0 & t1 & t2 & t3 & t4 & ->).
  unfold TIMEOUT in HI.
  assert (C : index = 0 \/ index = 1 \/ index = 2 \/ index = 3 \/ index = 4)
    by lia.
  destruct C as [-> | [-> | [-> | [-> | ->]]]]; eexists; reflexivity.
Qed.

(** [send_times[index] = t] on the five slots. *)
Lemma slot_set_spec (times : list float) (index : Z) (t : float)
    (times' : list float) :
  length times = 5%nat ->
  slot_set times index t = Ok times' ->
  length times' = 5%nat
  /\ slot_get times' index = Ok t
  /\ forall j, j <> index -> slot_get times' j = slot_get times j.
Proof.
  intros HL HS. destruct (times5 times HL) as (t0 & t1 & t2 & t3 & t4 & ->).
  unfold slot_set in HS.
  destruct ((0 <=? index)
            && (index <? Z.of_nat (length [t0; t1; t2; t3; t4]))
            && (index <? TIMEOUT)) eqn:B; [| discriminate HS].
  apply andb_prop in B. destruct B as (B & B2).
  apply andb_prop in B. destruct B as (B0 & _).
  apply Z.leb_le in B0. apply Z.ltb_lt in B2. unfold TIMEOUT in B2.
  assert (C : index = 0 \/ index = 1 \/ index = 2 \/ index = 3 \/ index = 4)
    by lia.
  injection HS as <-.
  destruct C as [-> | [-> | [-> | [-> | ->]]]];
    (split; [reflexivity |]; split; [reflexivity |]);
    intros j Hj; unfold slot_get;
    (destruct ((0 <=? j) && (j <? TIMEOUT)) eqn:Bj; [| reflexivity]);
    apply andb_prop in Bj; destruct Bj as (J0 & J1);
    apply Z.leb_le in J0; apply Z.ltb_lt in J1; unfold TIMEOUT in J1;
    assert (Cj : j = 0 \/ j = 1 \/ j = 2 \/ j = 3 \/ j = 4) by lia;
    destruct Cj as [-> | [-> | [-> | [-> | ->]]]];
    try reflexivity; contradiction Hj; reflexivity.
Qed.

Lemma slot_set_defined (times : list float) (index : Z) (t : float) :
  length times = 5%nat -> 0 <= index < TIMEOUT ->
  exists times', slot_set times index t = Ok times'.
Proof.
  intros HL HI. unfold slot_set. rewrite HL.
  replace ((0 <=? index) && (index <? Z.of_nat 5) && (index <? TIMEOUT))
    with true; [eexists; reflexivity |].
  symmetry. unfold TIMEOUT in *.
  apply andb_true_intro. split; [apply andb_true_intro; split |].
  - apply Z.leb_le. lia.
  - apply Z.ltb_lt. cbn. lia.
  - apply Z.ltb_lt. lia.
Qed.

Lemma int_val_ok (n v : Z) : int_val n = Ok v -> v = n.
Proof.
  unfold int_val. destruct (in_int n); [| discriminate].
  intros H. injection H as <-. reflexivity.
Qed.

(** What a returning [on_timeout] did. *)
Lemma on_timeout_inv (e : endianness) (pid : Z) (now : float) (now_s : Z)
    (st st' : session) (out : list event) :
  on_timeout e pid now now_s st = Ok (st', out) ->
  exists t times',
    slot_get (send_times st) (Z.rem (seq st) TIMEOUT) = Ok t
    /\ slot_set (send_times st) (Z.rem (seq st) TIMEOUT) now = Ok times'
    /\ st' = mk_session (seq st) times'
    /\ out = (if nonzero t then [EvTimeout (seq st - TIMEOUT)] else [])
               ++ [EvSend (wire_format e (probe pid (seq st) now_s))].
Proof.
  unfold on_timeout. intros H.
  destruct (slot_get (send_times st) (Z.rem (seq st) TIMEOUT)) as [t | |] eqn:G;
    try discriminate H.
  cbn [bind] in H.
  assert (HO : exists o,
             (if nonzero t
              then s <- int_val (seq st - TIMEOUT) ;; Ok [EvTimeout s]
              else Ok [])
             = Ok o
             /\ o = if nonzero t then [EvTimeout (seq st - TIMEOUT)] else []).
  { destruct (nonzero t); [| eexists; split; reflexivity].
    destruct (int_val (seq st - TIMEOUT)) as [v | |] eqn:V;
      try discriminate H.
    apply int_val_ok in V. subst v. eexists. split; reflexivity. }
  destruct HO as (o & HO & ->). rewrite HO in H. cbn [bind] in H.
  destruct (slot_set (send_times st) (Z.rem (seq st) TIMEOUT) now)
    as [times' | |] eqn:S; try discriminate H.
  cbn [bind] in H. rewrite send_req_ok in H. cbn [bind] in H.
  injection H as <- <-. exists t, times'. repeat split.
Qed.

(** In [on_recv], where the buffer after the IP header has 1480 bytes and
    the length is at least -21, [parse_reply] returns 0 only for a valid
    reply. *)
Lemma parse_reply_accepts (e : endianness) (reply0 reply : icmp_t)
    (buf : list byte) (len ret : Z) :
  length buf = 1480%nat -> -21 <= len <= 1480 ->
  parse_reply e reply0 buf len = Ok (ret, reply) ->
  ret = -1
  \/ (ret = 0 /\ valid_reply e buf len = true /\ reply = parsed_reply e buf).
Proof.
  intros HB HL HP. destruct (Z.lt_ge_cases len 0) as [Neg | Pos].
  - left. unfold parse_reply in HP.
    assert (HS : to_size_t len = len + 2 ^ 64).
    { unfold to_size_t. change (2 ^ 64) with 18446744073709551616.
      Z.div_mod_to_equations. lia. }
    rewrite HS in HP. change (2 ^ 64) with 18446744073709551616 in HP.
    unfold sizeof_icmp_t in HP.
    replace (len + 18446744073709551616 <? 16) with false in HP
      by (symmetry; apply Z.ltb_ge; lia).
    rewrite load_icmp_in in HP by (rewrite HB; cbn; lia).
    cbn [bind icmp_type icmp_code] in HP.
    destruct (negb (le_decode (field buf 0 1) =? 0)
              || negb (le_decode (field buf 1 1) =? 0)).
    + injection HP as <- _. reflexivity.
    + unfold copy_of in HP. rewrite HS in HP.
      change (2 ^ 64) with 18446744073709551616 in HP.
      replace (len + 18446744073709551616 <=? Z.of_nat (length buf))
        with false in HP
        by (symmetry; apply Z.leb_gt; rewrite HB; cbn; lia).
      discriminate HP.
  - destruct (parse_reply_spec e reply0 buf len) as (r & HR & HV).
    { rewrite HB. cbn. lia. }
    { change (2 ^ 31) with 2147483648. lia. }
    rewrite HR in HP. injection HP as <- <-.
    destruct (valid_reply e buf len).
    + right. repeat split. apply HV. reflexivity.
    + left. reflexivity.
Qed.

(** What a returning [on_recv] did: nothing, or the resolution of the slot
    of a valid, own and fresh reply. *)
Lemma on_recv_inv (e : endianness) (pid : Z) (buf : list byte) (nrecv : Z)
    (now : float) (st st' : session) (out : list event) :
  length buf = 1500%nat -> -1 <= nrecv <= MTU ->
  on_recv e pid buf nrecv now st = Ok (st', out) ->
  (st' = st /\ out = [])
  \/ (valid_reply e (skipn 20 buf) (nrecv - 20) = true
      /\ icmp_id (parsed_reply e (skipn 20 buf)) = Z.land pid 65535
      /\ seq st - TIMEOUT < icmp_seq (parsed_reply e (skipn 20 buf))
      /\ exists ttl t times',
           slot_get (send_times st)
             (Z.rem (icmp_seq (parsed_reply e (skipn 20 buf))) TIMEOUT) = Ok t
           /\ slot_set (send_times st)
                (Z.rem (icmp_seq (parsed_reply e (skipn 20 buf))) TIMEOUT)
                0%float = Ok times'
           /\ st' = mk_session (seq st) times'
           /\ out = [EvReply (icmp_seq (parsed_reply e (skipn 20 buf))) ttl
                       (PrimFloat.sub now t)]).
Proof.
  intros HB HN H. unfold on_recv in H. unfold MTU in HN.
  destruct (nrecv =? -1); [discriminate H |].
  destruct (load8 buf TTL_OFFSET) as [ttl | |]; try discriminate H.
  cbn [bind] in H. unfold IPV4_HEADER_SIZE in H.
  change (Z.to_nat 20) with 20%nat in H.
  destruct (parse_reply e no_reply (skipn 20 buf) (nrecv - 20))
    as [[ret reply] | |] eqn:P; try discriminate H.
  cbn [bind] in H.
  apply parse_reply_accepts in P;
    [| rewrite length_skipn, HB; reflexivity | lia].
  destruct P as [-> | (-> & HV & ->)].
  - cbn in H. injection H as <- <-. left. split; reflexivity.
  - change (0 =? -1) with false in H. cbv iota in H.
    destruct (icmp_id (parsed_reply e (skipn 20 buf)) =? Z.land pid 65535)
      eqn:I; cbn [negb] in H;
      [| injection H as <- <-; left; split; reflexivity].
    destruct (int_val (seq st - TIMEOUT)) as [limit | |] eqn:V;
      try discriminate H.
    apply int_val_ok in V. subst limit. cbn [bind] in H.
    destruct (icmp_seq (parsed_reply e (skipn 20 buf)) <=? seq st - TIMEOUT)
      eqn:L; [injection H as <- <-; left; split; reflexivity |].
    destruct (slot_get (send_times st)
                (Z.rem (icmp_seq (parsed_reply e (skipn 20 buf))) TIMEOUT))
      as [t | |] eqn:G; try discriminate H.
    cbn [bind] in H.
    destruct (slot_set (send_times st)
                (Z.rem (icmp_seq (parsed_reply e (skipn 20 buf))) TIMEOUT)
                0%float) as [times' | |] eqn:S; try discriminate H.
    cbn [bind] in H. injection H as <- <-.
    right. apply Z.eqb_eq in I. apply Z.leb_gt in L.
    repeat split; try assumption. exists ttl, t, times'. repeat split.
Qed.

Lemma window_ok_initial : window_ok initial [].
Proof.
  split; [reflexivity |]. intros index HI. unfold TIMEOUT in HI.
  assert (C : index = 0 \/ index = 1 \/ index = 2 \/ index = 3 \/ index = 4)
    by lia.
  exists 0%float.
  destruct C as [-> | [-> | [-> | [-> | ->]]]]; split; auto.
Qed.

(** [on_recv] leaves the window alone or writes 0 into one slot. *)
Lemma on_recv_state (e : endianness) (pid : Z) (buf : list byte) (nrecv : Z)
    (now : float) (st st' : session) (out : list event) :
  on_recv e pid buf nrecv now st = Ok (st', out) ->
  st' = st
  \/ exists index times',
       slot_set (send_times st) index 0%float = Ok times'
       /\ st' = mk_session (seq st) times'.
Proof.
  unfold on_recv. intros H.
  destruct (nrecv =? -1); [discriminate H |].
  destruct (load8 buf TTL_OFFSET) as [ttl | |]; try discriminate H.
  cbn [bind] in H.
  destruct (parse_reply e no_reply (skipn (Z.to_nat IPV4_HEADER_SIZE) buf)
              (nrecv - IPV4_HEADER_SIZE)) as [[ret reply] | |];
    try discriminate H.
  cbn [bind] in H.
  destruct (ret =? -1); [injection H as <- _; left; reflexivity |].
  destruct (negb (icmp_id reply =? Z.land pid 65535));
    [injection H as <- _; left; reflexivity |].
  destruct (int_val (seq st - TIMEOUT)) as [limit | |]; try discriminate H.
  cbn [bind] in H.
  destruct (icmp_seq reply <=? limit);
    [injection H as <- _; left; reflexivity |].
  destruct (slot_get (send_times st) (Z.rem (icmp_seq reply) TIMEOUT))
    as [t | |]; try discriminate H.
  cbn [bind] in H.
  destruct (slot_set (send_times st) (Z.rem (icmp_seq reply) TIMEOUT) 0%float)
    as [times' | |] eqn:S; try discriminate H.
  cbn [bind] in H. injection H as <- _.
  right. exists (Z.rem (icmp_seq reply) TIMEOUT), times'. split; auto.
Qed.

Lemma step_timer_inv (e : endianness) (pid : Z) (now : float) (now_s : Z)
    (st st' : session) (out : list event) :
  step e pid st (Timer now now_s) = Ok (st', out) ->
  exists times',
    slot_set (send_times st) (Z.rem (seq st + 1) TIMEOUT) now = Ok times'
    /\ st' = mk_session (seq st + 1) times'.
Proof.
  cbn [step]. intros H.
  destruct (int_val (seq st + 1)) as [s | |] eqn:V; try discriminate H.
  apply int_val_ok in V. subst s. cbn [bind] in H.
  apply on_timeout_inv in H. cbn [seq send_times] in H.
  destruct H as (t & times' & _ & HS & -> & _).
  exists times'. split; [exact HS | reflexivity].
Qed.

Lemma step_window_ok (e : endianness) (pid : Z) (st st' : session)
    (i : input) (out : list event) (log : list (Z * float)) :
  window_ok st log ->
  step e pid st i = Ok (st', out) ->
  window_ok st' (rev (probes (seq st) [i]) ++ log)
  /\ seq st' = seq st + Z.of_nat (length (probes (seq st) [i])).
Proof.
  intros (HL & HI) H. destruct i as [now now_s | buf nrecv now].
  - apply step_timer_inv in H. destruct H as (times' & HS & ->).
    destruct (slot_set_spec _ _ _ _ HL HS) as (HL' & Hsame & Hother).
    cbn [probes rev app length seq send_times]. split; [| lia].
    split; [exact HL' |]. intros index Hidx. cbn [last_sent send_times].
    destruct (Z.eq_dec index (Z.rem (seq st + 1) TIMEOUT)) as [-> | Hne].
    + exists now. rewrite Z.eqb_refl. split; [exact Hsame | right; reflexivity].
    + destruct (HI index Hidx) as (t & Ht & Hd).
      exists t. rewrite (Hother index Hne).
      replace (Z.rem (seq st + 1) TIMEOUT =? index) with false
        by (symmetry; apply Z.eqb_neq; congruence).
      split; assumption.
  - cbn [step] in H. apply on_recv_state in H.
    cbn [probes rev app length]. rewrite Z.add_0_r.
    destruct H as [-> | (idx & times' & HS & ->)].
    + split; [split; assumption | reflexivity].
    + destruct (slot_set_spec _ _ _ _ HL HS) as (HL' & Hsame & Hother).
      cbn [seq send_times]. split; [| reflexivity].
      split; [exact HL' |]. intros index Hidx. cbn [send_times].
      destruct (Z.eq_dec index idx) as [-> | Hne].
      * exists 0%float. split; [exact Hsame | left; reflexivity].
      * destruct (HI index Hidx) as (t & Ht & Hd).
        exists t. rewrite (Hother index Hne). split; assumption.
Qed.

Lemma probes_cons (s : Z) (i : input) (ins : list input) :
  probes s (i :: ins)
  = probes s [i] ++ probes (s + Z.of_nat (length (probes s [i]))) ins.
Proof.
  destruct i; cbn [probes app length Z.of_nat].
  - reflexivity.
  - rewrite Z.add_0_r. reflexivity.
Qed.

Lemma run_window_ok (e : endianness) (pid : Z) (ins : list input) :
  forall st st' out log,
    window_ok st log ->
    run e pid st ins = Ok (st', out) ->
    window_ok st' (rev (probes (seq st) ins) ++ log)
    /\ seq st' = seq st + Z.of_nat (length (probes (seq st) ins)).
Proof.
  induction ins as [|i ins IH]; intros st st' out log HW HR.
  - cbn in HR. injection HR as <- _. cbn. split; [exact HW | lia].
  - cbn [run] in HR.
    destruct (step e pid st i) as [[st1 out1] | |] eqn:S; try discriminate HR.
    cbn [bind] in HR.
    destruct (run e pid st1 ins) as [[st2 out2] | |] eqn:R;
      try discriminate HR.
    cbn [bind] in HR. injection HR as <- _.
    destruct (step_window_ok e pid st st1 i out1 log HW S) as (HW1 & HS1).
    destruct (IH st1 st2 out2 _ HW1 R) as (HW2 & HS2).
    rewrite probes_cons, rev_app_distr, <- app_assoc, length_app, <- HS1.
    split; [exact HW2 |]. rewrite HS2, HS1. lia.
Qed.

Lemma nonzero_change (t t' : float) (P : Prop) :
  t' = t -> nonzero t = false -> nonzero t' = true -> P.
Proof. intros -> H0 H1. congruence. Qed.

Lemma ok_inj (A : Type) (a b : A) : Ok a = Ok b -> a = b.
Proof. intros H. injection H as H. exact H. Qed.

(** How one iteration of the loop changes one slot. *)
Lemma step_slot_change (e : endianness) (pid : Z) (st st' : session)
    (i : input) (out : list event) (index : Z) (t t' : float) :
  length (send_times st) = 5%nat ->
  input_ok i ->
  step e pid st i = Ok (st', out) ->
  slot_get (send_times st) index = Ok t ->
  slot_get (send_times st') index = Ok t' ->
  (nonzero t = false -> nonzero t' = true -> sent_into st i index t')
  /\ (nonzero t = true -> nonzero t' = false -> accepted_into e pid st i index).
Proof.
  intros HL HI HS HG HG'. destruct i as [now now_s | buf nrecv now].
  - apply step_timer_inv in HS. destruct HS as (times' & HS & ->).
    destruct (slot_set_spec _ _ _ _ HL HS) as (_ & Hsame & Hother).
    cbn [send_times] in HG'. cbn [input_ok] in HI.
    destruct (Z.eq_dec index (Z.rem (seq st + 1) TIMEOUT)) as [-> | Hne].
    + rewrite Hsame in HG'. apply ok_inj in HG'. subst t'. split.
      * intros _ _. exists now_s. split; reflexivity.
      * intros _ H0. congruence.
    + rewrite (Hother index Hne), HG in HG'. apply ok_inj in HG'.
      split; intros H0 H1.
      * exact (nonzero_change t t' _ (eq_sym HG') H0 H1).
      * exact (nonzero_change t' t _ HG' H1 H0).
  - cbn [step] in HS. cbn [input_ok] in HI. destruct HI as (HB & HN).
    apply (on_recv_inv e pid buf nrecv now st st' out HB HN) in HS.
    destruct HS as [(-> & _) | (HV & Hid & Hseq & ttl & t0 & times' & _ & HS & -> & _)].
    + rewrite HG in HG'. apply ok_inj in HG'. split; intros H0 H1.
      * exact (nonzero_change t t' _ (eq_sym HG') H0 H1).
      * exact (nonzero_change t' t _ HG' H1 H0).
    + destruct (slot_set_spec _ _ _ _ HL HS) as (_ & Hsame & Hother).
      cbn [send_times] in HG'.
      destruct (Z.eq_dec index
                  (Z.rem (icmp_seq (parsed_reply e (skipn 20 buf))) TIMEOUT))
        as [-> | Hne].
      * rewrite Hsame in HG'. apply ok_inj in HG'. subst t'. split.
        -- intros _ H1. discriminate H1.
        -- intros _ _. exists buf, nrecv, now. repeat split; assumption.
      * rewrite (Hother index Hne), HG in HG'. apply ok_inj in HG'.
        split; intros H0 H1.
        -- exact (nonzero_change t t' _ (eq_sym HG') H0 H1).
        -- exact (nonzero_change t' t _ HG' H1 H0).
Qed.

(** ** Claims on the probe window *)

(** C10. At every point of the event loop, that is after any inputs [ins]
    handled from the initial state, each of the five entries of
    [send_times] is 0 or the send time of the most recently sent probe
    whose sequence number is congruent to its index modulo 5. In the next
    iteration, under a wall clock that is not at the epoch and a receive
    buffer of [MTU] bytes, a slot becomes non-zero only when a probe is
    sent into it, and becomes 0 only when a reply that passed the length,
    type and code, checksum, identifier and staleness checks is accepted
    for that slot. *)
Theorem window_slot_invariant (e : endianness) (pid : Z) (ins : list input)
    (st : session) (out : list event) :
  run e pid initial ins = Ok (st, out) ->
  (forall index, 0 <= index < TIMEOUT ->
     exists t, slot_get (send_times st) index = Ok t
               /\ (t = 0%float
                   \/ last_sent index (rev (probes 0 ins)) = Some t))
  /\ (forall i st' out' index t t',
        input_ok i ->
        step e pid st i = Ok (st', out') ->
        slot_get (send_times st) index = Ok t ->
        slot_get (send_times st') index = Ok t' ->
        (nonzero t = false -> nonzero t' = true -> sent_into st i index t')
        /\ (nonzero t = true -> nonzero t' = false ->
            accepted_into e pid st i index)).
Proof.
  intros HR.
  destruct (run_window_ok e pid ins initial st out [] window_ok_initial HR)
    as ((HL & HI) & _).
  rewrite app_nil_r in HI. cbn [seq initial] in HI. split.
  - exact HI.
  - intros i st' out' index t t' Hin HS HG HG'.
    exact (step_slot_change e pid st st' i out' index t t' HL Hin HS HG HG').
Qed.

(** One timer tick, forwards. *)
Lemma step_timer_ok (e : endianness) (pid s : Z) (now : float) (now_s : Z)
    (times : list float) (t : float) (times' : list float) :
  in_int (s + 1) = true -> in_int (s + 1 - TIMEOUT) = true ->
  slot_get times (Z.rem (s + 1) TIMEOUT) = Ok t ->
  slot_set times (Z.rem (s + 1) TIMEOUT) now = Ok times' ->
  step e pid (mk_session s times) (Timer now now_s)
  = Ok (mk_session (s + 1) times',
        (if nonzero t then [EvTimeout (s + 1 - TIMEOUT)] else [])
          ++ [EvSend (wire_format e (probe pid (s + 1) now_s))]).
Proof.
  intros H1 H2 HG HS. cbn [step seq send_times]. unfold int_val at 1.
  rewrite H1. cbn [bind]. unfold on_timeout. cbn [seq send_times].
  rewrite HG. cbn [bind]. unfold int_val. rewrite H2, HS, send_req_ok.
  destruct (nonzero t); reflexivity.
Qed.

Lemma mark_of_probe (e : endianness) (pid s now_s : Z) :
  0 <= s < 65536 ->
  mark_of (EvSend (wire_format e (probe pid s now_s))) = Sent s.
Proof.
  intros H. cbn [mark_of]. rewrite wire_seq_format. cbn [probe icmp_seq].
  change (2 ^ 16) with 65536. rewrite Z.mod_mod, Z.mod_small by lia.
  reflexivity.
Qed.

(** C2. From an empty window and a counter that makes the first probe
    carry sequence number 0, ten timer ticks with no datagram in between
    send the sequences 0..9 and report exactly five timeouts, for the
    sequences 0..4, the one for [k] immediately before [k + 5] is sent. *)
Theorem ten_probes_five_timeouts (e : endianness) (pid : Z)
    (ticks : list (float * Z)) :
  length ticks = 10%nat ->
  Forall (fun tk => nonzero (fst tk) = true) ticks ->
  exists st out,
    run e pid (mk_session (-1) (repeat 0%float 5))
      (map (fun tk => Timer (fst tk) (snd tk)) ticks) = Ok (st, out)
    /\ map mark_of out
       = [Sent 0; Sent 1; Sent 2; Sent 3; Sent 4;
          TimedOut 0; Sent 5; TimedOut 1; Sent 6; TimedOut 2; Sent 7;
          TimedOut 3; Sent 8; TimedOut 4; Sent 9].
Proof.
  intros HL HF.
  do 10 (destruct ticks as [|[? ?] ticks]; [discriminate HL |]).
  destruct ticks; [clear HL | discriminate HL].
  repeat match goal with
         | H : Forall _ (_ :: _) |- _ =>
             let H1 := fresh "NZ" in
             let H2 := fresh "F" in
             apply Forall_cons_iff in H; destruct H as (H1 & H2);
             cbn [fst] in H1
         end.
  cbn [map fst snd run repeat].
  repeat (erewrite step_timer_ok; [| reflexivity ..]; cbn [bind]).
  change (nonzero 0%float) with false.
  repeat match goal with H : nonzero _ = true |- _ => rewrite H; clear H end.
  eexists. eexists. split; [reflexivity |].
  cbn [app map]. rewrite !mark_of_probe by lia. reflexivity.
Qed.

Lemma ten_probes_five_timeouts_witness :
  exists st out,
    run LittleEndian 4660 (mk_session (-1) (repeat 0%float 5))
      (map (fun tk => Timer (fst tk) (snd tk))
         [(1000%float, 1); (2000%float, 2); (3000%float, 3);
          (4000%float, 4); (5000%float, 5); (6000%float, 6);
          (7000%float, 7); (8000%float, 8); (9000%float, 9);
          (10000%float, 10)])
    = Ok (st, out)
    /\ map mark_of out
       = [Sent 0; Sent 1; Sent 2; Sent 3; Sent 4;
          TimedOut 0; Sent 5; TimedOut 1; Sent 6; TimedOut 2; Sent 7;
          TimedOut 3; Sent 8; TimedOut 4; Sent 9].
Proof.
  apply (ten_probes_five_timeouts LittleEndian 4660
           [(1000%float, 1); (2000%float, 2); (3000%float, 3);
            (4000%float, 4); (5000%float, 5); (6000%float, 6);
            (7000%float, 7); (8000%float, 8); (9000%float, 9);
            (10000%float, 10)]);
    [reflexivity | repeat constructor].
Defined.

Lemma window_slot_invariant_witness :
  (exists t,
     slot_get [0; 1000; 2000; 0; 0]%float 1 = Ok t
     /\ (t = 0%float
         \/ last_sent 1 (rev (probes 0 [Timer 1000 1; Timer 2000 2]))
            = Some t))
  /\ sent_into (mk_session 2 [0; 1000; 2000; 0; 0]%float)
       (Timer 3000 3) 3 3000%float
  /\ accepted_into LittleEndian 4660
       (mk_session 2 [0; 1000; 2000; 0; 0]%float)
       (Socket (echo_reply 4660 2) 36 2042) 2.
Proof.
  destruct (window_slot_invariant LittleEndian 4660
              [Timer 1000 1; Timer 2000 2]
              (mk_session 2 [0; 1000; 2000; 0; 0]%float)
              [EvSend (wire_format LittleEndian (probe 4660 1 1));
               EvSend (wire_format LittleEndian (probe 4660 2 2))])
    as (H1 & H2).
  - vm_compute. reflexivity.
  - split; [apply H1; unfold TIMEOUT; lia |]. split.
    + refine (proj1 (H2 (Timer 3000 3)
                       (mk_session 3 [0; 1000; 2000; 3000; 0]%float)
                       [EvSend (wire_format LittleEndian (probe 4660 3 3))]
                       3 0%float 3000%float _ _ _ _) _ _);
        vm_compute; reflexivity.
    + refine (proj2 (H2 (Socket (echo_reply 4660 2) 36 2042)
                       (mk_session 2 [0; 1000; 0; 0; 0]%float)
                       [EvReply 2 64 42]
                       2 2000%float 0%float _ _ _ _) _ _);
        try (vm_compute; reflexivity).
      split; [reflexivity | unfold MTU; lia].
Defined.

(** C1: evaluation at a duplicate reply. Three probes are sent, the reply
    to sequence 3 arrives 42 ms after its probe and is reported; the same
    reply arrives again, finds slot 3 empty, and is reported a second
    time, with the time elapsed since 0. *)
Theorem duplicate_reply_reported :
  run LittleEndian 4660 initial
    [Timer 1000 1; Timer 2000 2; Timer 3000 3;
     Socket (echo_reply 4660 3) 36 3042;
     Socket (echo_reply 4660 3) 36 3050]
  = Ok (mk_session 3 [0; 1000; 2000; 0; 0]%float,
        [EvSend (wire_format LittleEndian (probe 4660 1 1));
         EvSend (wire_format LittleEndian (probe 4660 2 2));
         EvSend (wire_format LittleEndian (probe 4660 3 3));
         EvReply 3 64 42; EvReply 3 64 3050]).
Proof. vm_compute. reflexivity. Qed.

Lemma run_ticks (e : endianness) (pid : Z) (now : float) (now_s : Z)
    (n : nat) :
  forall st,
    length (send_times st) = 5%nat ->
    0 <= seq st + 1 -> seq st + Z.of_nat n < 2 ^ 31 ->
    exists st' out,
      run e pid st (repeat (Timer now now_s) n) = Ok (st', out)
      /\ seq st' = seq st + Z.of_nat n
      /\ length (send_times st') = 5%nat.
Proof.
  change (2 ^ 31) with 2147483648.
  induction n as [|n IH]; intros st HL H0 Hn.
  - exists st, []. cbn. repeat split; [lia | exact HL].
  - assert (HI : 0 <= Z.rem (seq st + 1) TIMEOUT < TIMEOUT)
      by (apply Z.rem_bound_pos; unfold TIMEOUT; lia).
    destruct (slot_get_defined _ _ HL HI) as (t & HG).
    destruct (slot_set_defined (send_times st) _ now HL HI) as (times' & HS).
    destruct (slot_set_spec _ _ _ _ HL HS) as (HL' & _).
    destruct (IH (mk_session (seq st + 1) times')) as (st' & out & HR & Hseq & HL'');
      cbn [seq send_times]; try lia; try exact HL'.
    cbn [repeat run]. destruct st as [s times]. cbn [seq send_times] in *.
    rewrite (step_timer_ok e pid s now now_s times t times');
      try assumption;
      try (unfold in_int, TIMEOUT; change (2 ^ 31) with 2147483648;
           apply andb_true_intro; split;
           [apply Z.leb_le | apply Z.ltb_lt]; lia).
    cbn [bind]. rewrite HR. cbn [bind].
    eexists. eexists. split; [reflexivity |]. split; [lia | exact HL''].
Qed.

Lemma on_recv_wrapped (times : list float) :
  on_recv LittleEndian 4660 (echo_reply 4660 0) 36 1042%float
    (mk_session 65536 times)
  = Ok (mk_session 65536 times, []).
Proof. vm_compute. reflexivity. Qed.

(** C7: evaluation behind the wrap. After 65535 ticks the next tick sends
    the probe of the counter value 65536, which carries the wrapped
    sequence number 0 on the wire; the reply to it, with sequence number
    0, is compared against the unwrapped counter, found stale and dropped:
    no output, the slot stays occupied. *)
Theorem reply_after_wrap_dropped :
  exists st out,
    run LittleEndian 4660 initial
      (repeat (Timer 1000 1) (N.to_nat 65535)) = Ok (st, out)
    /\ seq st = 65535
    /\ exists st' out' pkt,
         step LittleEndian 4660 st (Timer 1000 1)
         = Ok (st', out' ++ [EvSend pkt])
         /\ seq st' = 65536
         /\ wire_seq pkt = 0
         /\ step LittleEndian 4660 st'
              (Socket (echo_reply 4660 0) 36 1042)
            = Ok (st', []).
Proof.
  destruct (run_ticks LittleEndian 4660 1000 1 (N.to_nat 65535) initial)
    as (st & out & HR & Hseq & HL).
  { reflexivity. }
  { cbn. lia. }
  { rewrite N_nat_Z. cbn. lia. }
  rewrite N_nat_Z in Hseq. cbn in Hseq.
  exists st, out. split; [exact HR |]. split; [exact Hseq |].
  destruct st as [s times]. cbn [seq send_times] in *. subst s.
  assert (HI : 0 <= Z.rem (65535 + 1) TIMEOUT < TIMEOUT)
    by (unfold TIMEOUT; cbn; lia).
  destruct (slot_get_defined _ _ HL HI) as (t & HG).
  destruct (slot_set_defined times _ 1000%float HL HI) as (times' & HS).
  exists (mk_session 65536 times').
  exists (if nonzero t then [EvTimeout (65535 + 1 - TIMEOUT)] else []).
  exists (wire_format LittleEndian (probe 4660 (65535 + 1) 1)).
  split; [| split; [reflexivity | split]].
  - exact (step_timer_ok LittleEndian 4660 65535 1000 1 times t times'
             eq_refl eq_refl HG HS).
  - vm_compute. reflexivity.
  - cbn [step]. apply on_recv_wrapped.
Qed.

(** * Further properties of the code *)

(** ** Accesses within a prefix of a buffer *)

Lemma in_bounds_app (x rest : list byte) (off : Z) (n : nat) :
  in_bounds x off n = true -> in_bounds (x ++ rest) off n = true.
Proof.
  unfold in_bounds. intros H. apply andb_prop in H. destruct H as (H0 & H1).
  apply Z.leb_le in H0, H1. rewrite length_app.
  apply andb_true_intro. split; apply Z.leb_le; lia.
Qed.

Lemma load_app_l (x rest : list byte) (off : Z) (n : nat) (bs : list byte) :
  load x off n = Ok bs -> load (x ++ rest) off n = Ok bs.
Proof.
  unfold load. destruct (in_bounds x off n) eqn:B; [| discriminate].
  rewrite (in_bounds_app x rest off n B). intros H. injection H as <-.
  unfold in_bounds in B. apply andb_prop in B. destruct B as (H0 & H1).
  apply Z.leb_le in H0, H1.
  rewrite skipn_app, firstn_app, length_skipn.
  replace (Z.to_nat off - length x)%nat with 0%nat by lia.
  replace (n - (length x - Z.to_nat off))%nat with 0%nat by lia.
  cbn [skipn firstn]. rewrite app_nil_r. reflexivity.
Qed.

Lemma store_app_l (x rest : list byte) (off : Z) (bs x' : list byte) :
  store x off bs = Ok x' -> store (x ++ rest) off bs = Ok (x' ++ rest).
Proof.
  unfold store. destruct (in_bounds x off (length bs)) eqn:B; [| discriminate].
  rewrite (in_bounds_app x rest off _ B). intros H. injection H as <-.
  unfold in_bounds in B. apply andb_prop in B. destruct B as (H0 & H1).
  apply Z.leb_le in H0, H1.
  rewrite firstn_app, skipn_app.
  replace (Z.to_nat off - length x)%nat with 0%nat by lia.
  replace (Z.to_nat off + length bs - length x)%nat with 0%nat by lia.
  cbn [firstn skipn]. rewrite app_nil_r, <- !app_assoc. reflexivity.
Qed.

Lemma sum_words_app_l (e : endianness) (x rest : list byte) (n : nat) :
  forall i acc c,
    sum_words e x i n acc = Ok c -> sum_words e (x ++ rest) i n acc = Ok c.
Proof.
  induction n as [|n IH]; intros i acc c H.
  - exact H.
  - cbn [sum_words] in *. unfold load16 in *.
    destruct (load x i 2) as [bs | |] eqn:L; try discriminate H.
    rewrite (load_app_l x rest i 2 bs L). cbn [bind] in *.
    apply IH. exact H.
Qed.

(** A checksum that returns does not depend on what follows the bytes it
    could read. *)
Lemma icmp_checksum_app_l (e : endianness) (x rest : list byte) (len c : Z) :
  icmp_checksum e x len = Ok c -> icmp_checksum e (x ++ rest) len = Ok c.
Proof.
  unfold icmp_checksum. destruct (Z.rem len 2 =? 1).
  - unfold load8.
    destruct (load x (len - 1 - 1) 1) as [bs | |] eqn:L; try discriminate.
    rewrite (load_app_l x rest _ 1 bs L). cbn [bind].
    destruct (sum_words e x 0 (Z.to_nat ((len - 1 + 1) / 2))
                (decode e [byte_of_Z (le_decode bs); x00])) as [s | |] eqn:S;
      try discriminate.
    rewrite (sum_words_app_l e x rest _ _ _ _ S). cbn [bind]. auto.
  - cbn [bind].
    destruct (sum_words e x 0 (Z.to_nat ((len + 1) / 2)) 0) as [s | |] eqn:S;
      try discriminate.
    rewrite (sum_words_app_l e x rest _ _ _ _ S). cbn [bind]. auto.
Qed.

Lemma icmp_serialize_app_l (e : endianness) (req : icmp_t)
    (x rest : list byte) (len : Z) (pkt : list byte) :
  icmp_serialize e req x len = Ok pkt ->
  icmp_serialize e req (x ++ rest) len = Ok (pkt ++ rest).
Proof.
  unfold icmp_serialize, store16, store64, store8.
  destruct (negb (to_size_t len =? sizeof_icmp_t)); [discriminate |].
  repeat match goal with
         | |- bind (store ?b ?o ?v) _ = _ -> _ =>
             let S := fresh "S" in
             destruct (store b o v) as [? | |] eqn:S; try discriminate;
             rewrite (store_app_l _ rest _ _ _ S); cbn [bind]
         end.
  match goal with
  | |- bind (icmp_checksum ?e ?b ?l) _ = _ -> _ =>
      let C := fresh "C" in
      destruct (icmp_checksum e b l) as [c | |] eqn:C; try discriminate;
      rewrite (icmp_checksum_app_l _ _ rest _ _ C); cbn [bind]
  end.
  intros H. apply store_app_l. exact H.
Qed.

Lemma int_to_size_t_16 (len : Z) :
  - 2 ^ 31 <= len < 2 ^ 31 -> (to_size_t len =? sizeof_icmp_t) = (len =? 16).
Proof.
  intros H. unfold to_size_t, sizeof_icmp_t.
  change (2 ^ 31) with 2147483648 in H.
  change (2 ^ 64) with 18446744073709551616.
  destruct (len =? 16) eqn:E.
  - apply Z.eqb_eq in E. subst len. reflexivity.
  - apply Z.eqb_neq in E. apply Z.eqb_neq. Z.div_mod_to_equations. lia.
Qed.

(** X1. On a buffer of at least 16 bytes and an [int] length,
    [icmp_serialize] exits unless the length is exactly 16; with 16 it
    writes the wire format into the first 16 bytes and leaves every byte
    behind them as it was. *)
Theorem icmp_serialize_frame (e : endianness) (req : icmp_t)
    (buf : list byte) (len : Z) :
  (16 <= length buf)%nat ->
  - 2 ^ 31 <= len < 2 ^ 31 ->
  icmp_serialize e req buf len
  = if len =? 16 then Ok (wire_format e req ++ skipn 16 buf) else Exit.
Proof.
  intros HL Hint. destruct (len =? 16) eqn:E.
  - apply Z.eqb_eq in E. subst len.
    rewrite <- (firstn_skipn 16 buf) at 1.
    apply icmp_serialize_app_l. apply icmp_serialize_ok.
    rewrite length_firstn. lia.
  - unfold icmp_serialize. rewrite (int_to_size_t_16 len Hint), E. reflexivity.
Qed.

Lemma icmp_serialize_frame_witness :
  icmp_serialize LittleEndian (mk_icmp 8 0 0 4660 3 1700000000)
    (repeat xff 18) 16
  = Ok (bytes [8; 0; 145; 114; 18; 52; 0; 3; 0; 241; 83; 101; 0; 0; 0; 0;
               255; 255]).
Proof.
  exact (icmp_serialize_frame LittleEndian (mk_icmp 8 0 0 4660 3 1700000000)
           (repeat xff 18) 16 ltac:(cbn; lia) ltac:(cbn; lia)).
Defined.

(** X2. The two bytes [icmp_checksum] leaves in memory do not depend on
    the byte order of the host: on every buffer of even length of at most
    131074 bytes a little-endian and a big-endian host compute checksums
    whose object representations are equal. *)
Theorem icmp_checksum_host_independent (buf : list byte) :
  Nat.even (length buf) = true ->
  Z.of_nat (length buf) <= 131074 ->
  exists cl cb,
    icmp_checksum LittleEndian buf (Z.of_nat (length buf)) = Ok cl
    /\ icmp_checksum BigEndian buf (Z.of_nat (length buf)) = Ok cb
    /\ encode LittleEndian 2 cl = encode BigEndian 2 cb.
Proof.
  intros HE HL. apply Nat.even_spec in HE. destruct HE as (n & Hn).
  exists (65535 - oc_sum (words16 LittleEndian buf)).
  exists (65535 - oc_sum (words16 BigEndian buf)).
  split; [| split].
  - apply (icmp_checksum_even LittleEndian buf n Hn).
    apply zsum_words16_fits. exact HL.
  - apply (icmp_checksum_even BigEndian buf n Hn).
    apply zsum_words16_fits. exact HL.
  - apply checksum_bytes_network.
Qed.

Lemma icmp_checksum_host_independent_witness :
  exists cl cb,
    icmp_checksum LittleEndian (bytes [1; 2; 3; 4]) 4 = Ok cl
    /\ icmp_checksum BigEndian (bytes [1; 2; 3; 4]) 4 = Ok cb
    /\ encode LittleEndian 2 cl = encode BigEndian 2 cb.
Proof.
  apply (icmp_checksum_host_independent (bytes [1; 2; 3; 4]));
    [reflexivity | cbn; lia].
Defined.

(** X3. For a length of 0 or below [icmp_checksum] reads nothing and
    returns 0xFFFF, whatever the buffer, the empty one included. *)
Theorem icmp_checksum_no_bytes (e : endianness) (buf : list byte) (len : Z) :
  len <= 0 -> icmp_checksum e buf len = Ok 65535.
Proof.
  intros H. unfold icmp_checksum.
  replace (Z.rem len 2 =? 1) with false.
  2:{ symmetry. apply Z.eqb_neq. intros R.
      pose proof (Z.rem_nonpos len 2 ltac:(lia) H). lia. }
  cbn [bind].
  assert (HN : (len + 1) / 2 <= 0) by (Z.div_mod_to_equations; lia).
  replace (Z.to_nat ((len + 1) / 2)) with 0%nat by lia.
  reflexivity.
Qed.

Lemma icmp_checksum_no_bytes_witness :
  icmp_checksum BigEndian [] (-3) = Ok 65535.
Proof. apply (icmp_checksum_no_bytes BigEndian [] (-3)). lia. Defined.

(** At an odd length the bytes read all lie before the last one. *)
Lemma icmp_checksum_odd_prefix (e : endianness) (pre : list byte) :
  Nat.even (length pre) = true -> (2 <= length pre)%nat ->
  exists c, icmp_checksum e pre (Z.of_nat (length pre) + 1) = Ok c.
Proof.
  intros HE HL. apply Nat.even_spec in HE. destruct HE as (n & Hn).
  unfold icmp_checksum.
  replace (Z.rem (Z.of_nat (length pre) + 1) 2 =? 1) with true.
  2:{ symmetry. apply Z.eqb_eq. rewrite Z.rem_mod_nonneg by lia.
      rewrite Hn, Nat2Z.inj_mul. change (Z.of_nat 2) with 2.
      Z.div_mod_to_equations. lia. }
  unfold load8. rewrite load_in by lia. cbn [bind].
  destruct (sum_words_defined e pre
              (Z.to_nat ((Z.of_nat (length pre) + 1 - 1 + 1) / 2)) 0
              (decode e
                 [byte_of_Z
                    (le_decode
                       (field pre
                          (Z.to_nat (Z.of_nat (length pre) + 1 - 1 - 1)) 1));
                  x00])) as (c & ->).
  - lia.
  - rewrite Z2Nat.id by (Z.div_mod_to_equations; lia).
    Z.div_mod_to_equations. lia.
  - cbn [bind]. eexists. reflexivity.
Qed.

(** X4. At an odd length of at least 3 the last byte of the buffer has no
    influence on [icmp_checksum]: two buffers that differ only there get
    the same checksum. *)
Theorem icmp_checksum_ignores_last_byte (e : endianness) (pre : list byte)
    (a b : byte) :
  Nat.even (length pre) = true -> (2 <= length pre)%nat ->
  exists c,
    icmp_checksum e (pre ++ [a]) (Z.of_nat (length pre) + 1) = Ok c
    /\ icmp_checksum e (pre ++ [b]) (Z.of_nat (length pre) + 1) = Ok c.
Proof.
  intros HE HL. destruct (icmp_checksum_odd_prefix e pre HE HL) as (c & HC).
  exists c. split; apply icmp_checksum_app_l; exact HC.
Qed.

Lemma icmp_checksum_ignores_last_byte_witness :
  exists c,
    icmp_checksum LittleEndian (bytes [1; 2] ++ [x03]) (Z.of_nat 2 + 1) = Ok c
    /\ icmp_checksum LittleEndian (bytes [1; 2] ++ [xff]) (Z.of_nat 2 + 1)
       = Ok c.
Proof.
  apply (icmp_checksum_ignores_last_byte LittleEndian (bytes [1; 2]) x03 xff);
    [reflexivity | cbn; lia].
Defined.

Lemma byte_to_Z_inj (a b : byte) : byte_to_Z a = byte_to_Z b -> a = b.
Proof.
  intros H. rewrite <- (byte_of_to_Z a), <- (byte_of_to_Z b), H. reflexivity.
Qed.

Lemma icmp_checksum16 (e : endianness) (x : list byte) :
  length x = 16%nat ->
  icmp_checksum e x 16 = Ok (65535 - oc_sum (words16 e x)).
Proof.
  intros HL. replace 16 with (Z.of_nat (length x)) by (rewrite HL; reflexivity).
  apply (icmp_checksum_even e x 8 HL).
  apply zsum_words16_fits. rewrite HL. cbn. lia.
Qed.

Lemma net_bytes_inj (e : endianness) (c c' : Z) :
  0 <= c <= 65535 -> 0 <= c' <= 65535 ->
  decode BigEndian (encode e 2 c) = decode BigEndian (encode e 2 c') ->
  c = c'.
Proof.
  intros Hc Hc'. destruct e.
  - rewrite !encode_little_swap, !decode_encode.
    change (256 ^ Z.of_nat 2) with 65536.
    pose proof (bswap16_range c). pose proof (bswap16_range c').
    rewrite !Z.mod_small by lia. intros H1.
    rewrite <- (bswap16_involutive c), <- (bswap16_involutive c'), H1 by lia.
    reflexivity.
  - rewrite !decode_encode. change (256 ^ Z.of_nat 2) with 65536.
    rewrite !Z.mod_small by lia. auto.
Qed.

(** Two word lists whose sums differ by less than 65535 have different
    ones'-complement sums. *)
Lemma oc_sum_differs (ws ws' : list Z) :
  Forall (fun w => 0 <= w <= 65535) ws ->
  Forall (fun w => 0 <= w <= 65535) ws' ->
  zsum ws <> zsum ws' -> -65535 < zsum ws - zsum ws' < 65535 ->
  oc_sum ws <> oc_sum ws'.
Proof.
  intros HR HR' Hne Hd Heq.
  destruct (oc_sum_repr ws HR) as (_ & (k & Hk) & _).
  destruct (oc_sum_repr ws' HR') as (_ & (k' & Hk') & _).
  rewrite Heq in Hk. lia.
Qed.

Lemma valid_reply16 (e : endianness)
    (a0 a1 a2 a3 a4 a5 a6 a7 a8 a9 a10 a11 a12 a13 a14 a15 : byte) :
  valid_reply e
    [a0; a1; a2; a3; a4; a5; a6; a7; a8; a9; a10; a11; a12; a13; a14; a15] 16
  = (byte_to_Z a0 =? 0) && (byte_to_Z a1 =? 0)
    && (decode BigEndian
          (encode e 2
             (65535
              - oc_sum
                  (words16 e
                     [a0; a1; x00; x00; a4; a5; a6; a7; a8; a9; a10; a11;
                      a12; a13; a14; a15])))
        =? decode BigEndian [a2; a3]).
Proof.
  unfold valid_reply. change (Z.to_nat 16) with 16%nat.
  cbn [field firstn skipn zero_checksum_field app le_decode].
  rewrite icmp_checksum16 by reflexivity.
  rewrite !Z.mul_0_r, !Z.add_0_r. reflexivity.
Qed.

Lemma received_mismatch (c rx rx' : Z) :
  c = rx -> rx' <> rx -> (c =? rx') = false.
Proof. intros -> H. apply Z.eqb_neq. intros E. apply H. symmetry. exact E. Qed.

Lemma recomputed_mismatch (e : endianness) (x x' : list byte) (rx : Z) :
  decode BigEndian (encode e 2 (65535 - oc_sum (words16 e x))) = rx ->
  oc_sum (words16 e x') <> oc_sum (words16 e x) ->
  (decode BigEndian (encode e 2 (65535 - oc_sum (words16 e x'))) =? rx)
  = false.
Proof.
  intros H D. apply Z.eqb_neq. intros H'.
  pose proof (oc_sum_range e x). pose proof (oc_sum_range e x').
  rewrite <- H in H'. apply net_bytes_inj in H'; try lia.
Qed.

Ltac split_index i n :=
  lazymatch n with
  | O => idtac
  | S ?m => destruct i as [|i]; [| split_index i m]
  end.

Lemma valid_reply_corrupted (e : endianness) (pkt : list byte) (i : nat)
    (b : byte) :
  length pkt = 16%nat ->
  valid_reply e pkt 16 = true ->
  (i < 16)%nat -> nth i pkt x00 <> b ->
  valid_reply e (set_byte i b pkt) 16 = false.
Proof.
  intros HL HV Hi Hb.
  destruct (length16 _ pkt HL)
    as (a0 & a1 & a2 & a3 & a4 & a5 & a6 & a7 & a8 & a9 & a10 & a11 & a12
        & a13 & a14 & a15 & ->).
  rewrite valid_reply16 in HV.
  apply andb_prop in HV. destruct HV as (HV & HK).
  apply andb_prop in HV. destruct HV as (HT & HC).
  apply Z.eqb_eq in HT, HC, HK.
  assert (Hne : byte_to_Z (nth i
                  [a0; a1; a2; a3; a4; a5; a6; a7; a8; a9; a10; a11; a12;
                   a13; a14; a15] x00) <> byte_to_Z b)
    by (intros E; apply Hb; apply byte_to_Z_inj; exact E).
  clear Hb.
  pose proof (byte_to_Z_range b) as Rb.
  pose proof (byte_to_Z_range (nth i
                  [a0; a1; a2; a3; a4; a5; a6; a7; a8; a9; a10; a11; a12;
                   a13; a14; a15] x00)) as Ra.
  revert Hne Ra Hi.
  split_index i 16%nat; intros Hne Ra Hi; [.. | exfalso; lia];
    cbn [nth] in Hne, Ra;
    unfold set_byte; cbn [firstn skipn app]; rewrite valid_reply16.
  1: { replace (byte_to_Z b =? 0) with false
         by (symmetry; apply Z.eqb_neq; lia).
       reflexivity. }
  1: { replace (byte_to_Z b =? 0) with false
         by (symmetry; apply Z.eqb_neq; lia).
       apply andb_false_intro1. apply andb_false_r. }
  1, 2: apply andb_false_intro2; apply (received_mismatch _ _ _ HK);
    rewrite !decode2; lia.
  all: apply andb_false_intro2; apply (recomputed_mismatch e _ _ _ HK);
    apply oc_sum_differs; try apply words16_range;
    unfold zsum; cbn [words16 fold_right]; rewrite !decode2;
    destruct e; lia.
Qed.

Lemma set_byte_length (i : nat) (b : byte) (bs : list byte) :
  (i < length bs)%nat -> length (set_byte i b bs) = length bs.
Proof.
  intros H. unfold set_byte.
  rewrite length_app, length_firstn. cbn [length]. rewrite length_skipn. lia.
Qed.

Lemma parse_reply_accepted_valid (e : endianness) (reply0 r : icmp_t)
    (buf : list byte) (len : Z) :
  0 <= len <= Z.of_nat (length buf) -> len < 2 ^ 31 ->
  parse_reply e reply0 buf len = Ok (0, r) ->
  valid_reply e buf len = true.
Proof.
  intros HL Hint HP.
  destruct (parse_reply_spec e reply0 buf len HL Hint) as (r' & HR & _).
  rewrite HR in HP. destruct (valid_reply e buf len); [reflexivity |].
  discriminate HP.
Qed.

(** X5. Error detection on the 16-byte reply: when [parse_reply] accepts a
    packet, it rejects every packet that differs from it in exactly one
    byte, whichever byte and whatever its new value. *)
Theorem corrupted_reply_rejected (e : endianness) (reply0 r : icmp_t)
    (pkt : list byte) (i : nat) (b : byte) :
  length pkt = 16%nat ->
  parse_reply e reply0 pkt 16 = Ok (0, r) ->
  (i < 16)%nat -> nth i pkt x00 <> b ->
  exists r', parse_reply e reply0 (set_byte i b pkt) 16 = Ok (-1, r').
Proof.
  intros HL HP Hi Hb.
  assert (HV : valid_reply e pkt 16 = true).
  { apply (parse_reply_accepted_valid e reply0 r); [rewrite HL; cbn; lia | reflexivity | exact HP]. }
  pose proof (valid_reply_corrupted e pkt i b HL HV Hi Hb) as HV'.
  destruct (parse_reply_spec e reply0 (set_byte i b pkt) 16) as (r' & HR & _).
  { rewrite set_byte_length, HL by lia. cbn. lia. }
  { reflexivity. }
  rewrite HV' in HR. exists r'. exact HR.
Qed.

Lemma corrupted_reply_rejected_witness :
  exists r',
    parse_reply LittleEndian no_reply
      (set_byte 7 x04
         (bytes [0; 0; 153; 114; 18; 52; 0; 3; 0; 241; 83; 101; 0; 0; 0; 0]))
      16
    = Ok (-1, r').
Proof.
  apply (corrupted_reply_rejected LittleEndian no_reply
           (mk_icmp 0 0 39282 4660 3 1700000000)
           (bytes [0; 0; 153; 114; 18; 52; 0; 3; 0; 241; 83; 101; 0; 0; 0; 0])
           7 x04);
    [reflexivity | reflexivity | lia | discriminate].
Defined.

(** ** [on_recv] on a datagram of at least 20 bytes *)

Lemma load_icmp_app_l (e : endianness) (x rest : list byte) (r : icmp_t) :
  load_icmp e x = Ok r -> load_icmp e (x ++ rest) = Ok r.
Proof.
  unfold load_icmp, load8, load16, load64.
  repeat match goal with
         | |- bind (bind (load ?b ?o ?n) _) _ = _ -> _ =>
             let L := fresh "L" in
             destruct (load b o n) as [? | |] eqn:L; try discriminate;
             rewrite (load_app_l _ rest _ _ _ L); cbn [bind]
         end.
  auto.
Qed.

(** [parse_reply] on exactly the [len] bytes it is given does not depend
    on what lies behind them. *)
Lemma parse_reply_app_l (e : endianness) (reply0 : icmp_t)
    (x rest : list byte) :
  Z.of_nat (length x) < 2 ^ 31 ->
  parse_reply e reply0 (x ++ rest) (Z.of_nat (length x))
  = parse_reply e reply0 x (Z.of_nat (length x)).
Proof.
  intros Hint.
  destruct (parse_reply_spec e reply0 x (Z.of_nat (length x))
              ltac:(lia) Hint) as (r & HR & _).
  rewrite HR. revert HR. generalize (if valid_reply e x (Z.of_nat (length x)) then 0 else -1).
  intros ret. unfold parse_reply.
  destruct (to_size_t (Z.of_nat (length x)) <? sizeof_icmp_t); [auto |].
  destruct (load_icmp e x) as [raw | |] eqn:L; try discriminate.
  rewrite (load_icmp_app_l e x rest raw L). cbn [bind].
  destruct (negb (icmp_type raw =? 0) || negb (icmp_code raw =? 0)); [auto |].
  unfold copy_of. rewrite to_size_t_nonneg by lia.
  replace (Z.of_nat (length x) <=? Z.of_nat (length (x ++ rest))) with true
    by (symmetry; apply Z.leb_le; rewrite length_app; lia).
  replace (Z.of_nat (length x) <=? Z.of_nat (length x)) with true
    by (symmetry; apply Z.leb_le; lia).
  rewrite Nat2Z.id, firstn_length_app, firstn_all. auto.
Qed.

(** X6. For a datagram of at least 20 bytes, what the receive buffer holds
    behind the datagram has no influence on [on_recv]: the result is that
    of the datagram alone. *)
Theorem on_recv_ignores_stale_bytes (e : endianness) (pid : Z)
    (dgram stale : list byte) (now : float) (st : session) :
  (20 <= length dgram)%nat -> Z.of_nat (length dgram) < 2 ^ 31 ->
  on_recv e pid (dgram ++ stale) (Z.of_nat (length dgram)) now st
  = on_recv e pid dgram (Z.of_nat (length dgram)) now st.
Proof.
  intros HL Hint. unfold on_recv.
  destruct (Z.of_nat (length dgram) =? -1); [reflexivity |].
  unfold load8, TTL_OFFSET, IPV4_HEADER_SIZE.
  rewrite (load_app_l dgram stale 8 1 (field dgram 8 1))
    by (apply load_in; lia).
  rewrite (load_in dgram 8 1) by lia. cbn [bind].
  change (Z.to_nat 20) with 20%nat.
  rewrite skipn_app. replace (20 - length dgram)%nat with 0%nat by lia.
  cbn [skipn].
  replace (Z.of_nat (length dgram) - 20)
    with (Z.of_nat (length (skipn 20 dgram)))
    by (rewrite length_skipn; lia).
  rewrite parse_reply_app_l by (rewrite length_skipn; lia).
  reflexivity.
Qed.

Lemma on_recv_ignores_stale_bytes_witness :
  on_recv LittleEndian 4660
    (firstn 36 (echo_reply 4660 3) ++ repeat xff 1464)
    (Z.of_nat (length (firstn 36 (echo_reply 4660 3)))) 3042%float
    (mk_session 3 [0; 1000; 2000; 3000; 0]%float)
  = on_recv LittleEndian 4660 (firstn 36 (echo_reply 4660 3))
      (Z.of_nat (length (firstn 36 (echo_reply 4660 3)))) 3042%float
      (mk_session 3 [0; 1000; 2000; 3000; 0]%float).
Proof.
  apply (on_recv_ignores_stale_bytes LittleEndian 4660
           (firstn 36 (echo_reply 4660 3)) (repeat xff 1464));
    [vm_compute; lia | vm_compute; reflexivity].
Defined.

Lemma parsed_seq_range (e : endianness) (x : list byte) :
  (8 <= length x)%nat -> 0 <= icmp_seq (parsed_reply e x) <= 65535.
Proof.
  intros HL. cbn [parsed_reply icmp_seq].
  destruct (field2 x 6) as (a & b & ->); [lia |]. apply decode2_range.
Qed.

(** [on_recv] on a datagram of 20 to 1500 bytes, as a function of the
    three checks that follow [parse_reply]. *)
Lemma on_recv_char (e : endianness) (pid : Z) (buf : list byte) (nrecv : Z)
    (now : float) (st : session) :
  length buf = 1500%nat -> 20 <= nrecv <= 1500 ->
  length (send_times st) = 5%nat ->
  in_int (seq st - TIMEOUT) = true ->
  exists t times',
    slot_get (send_times st)
      (Z.rem (icmp_seq (parsed_reply e (skipn 20 buf))) TIMEOUT) = Ok t
    /\ slot_set (send_times st)
         (Z.rem (icmp_seq (parsed_reply e (skipn 20 buf))) TIMEOUT) 0%float
       = Ok times'
    /\ on_recv e pid buf nrecv now st
       = if valid_reply e (skipn 20 buf) (nrecv - 20)
            && (icmp_id (parsed_reply e (skipn 20 buf)) =? Z.land pid 65535)
            && negb (icmp_seq (parsed_reply e (skipn 20 buf))
                     <=? seq st - TIMEOUT)
         then Ok (mk_session (seq st) times',
                  [EvReply (icmp_seq (parsed_reply e (skipn 20 buf)))
                     (le_decode (field buf 8 1)) (PrimFloat.sub now t)])
         else Ok (st, []).
Proof.
  intros HB HN HL HI.
  assert (HX : length (skipn 20 buf) = 1480%nat)
    by (rewrite length_skipn, HB; reflexivity).
  pose proof (parsed_seq_range e (skipn 20 buf) ltac:(lia)) as HS.
  assert (HR : 0 <= Z.rem (icmp_seq (parsed_reply e (skipn 20 buf))) TIMEOUT
               < TIMEOUT)
    by (apply Z.rem_bound_pos; unfold TIMEOUT; lia).
  destruct (slot_get_defined _ _ HL HR) as (t & HG).
  destruct (slot_set_defined (send_times st) _ 0%float HL HR) as (times' & HT).
  exists t, times'. split; [exact HG |]. split; [exact HT |].
  unfold on_recv.
  replace (nrecv =? -1) with false by (symmetry; apply Z.eqb_neq; lia).
  unfold load8, TTL_OFFSET, IPV4_HEADER_SIZE.
  rewrite load_in by (rewrite ?HB; cbn; lia). cbn [bind].
  change (Z.to_nat 8) with 8%nat. change (Z.to_nat 20) with 20%nat.
  destruct (parse_reply_spec e no_reply (skipn 20 buf) (nrecv - 20))
    as (r & HP & HV).
  { rewrite HX. cbn. lia. }
  { change (2 ^ 31) with 2147483648. lia. }
  rewrite HP. cbn [bind].
  destruct (valid_reply e (skipn 20 buf) (nrecv - 20)); [| reflexivity].
  rewrite (HV eq_refl). change (0 =? -1) with false. cbv iota. cbn [andb].
  destruct (icmp_id (parsed_reply e (skipn 20 buf)) =? Z.land pid 65535);
    [| reflexivity].
  cbn [negb andb]. unfold int_val. rewrite HI. cbn [bind].
  destruct (icmp_seq (parsed_reply e (skipn 20 buf)) <=? seq st - TIMEOUT);
    [reflexivity |].
  cbn [negb]. rewrite HG, HT. reflexivity.
Qed.

Lemma inet_checksum_range (bs : list byte) : 0 <= inet_checksum bs <= 65535.
Proof. unfold inet_checksum. pose proof (oc_sum_range BigEndian bs). lia. Qed.

(** On an even number of bytes the checks of [parse_reply] are those of
    the Internet checksum. *)
Lemma valid_reply_even (e : endianness) (buf : list byte) (len : Z) :
  0 <= len <= Z.of_nat (length buf) -> len <= 131074 ->
  Z.even len = true ->
  valid_reply e buf len = inet_valid buf len.
Proof.
  intros HL HB HE. unfold valid_reply, inet_valid.
  destruct (16 <=? len) eqn:G; [| reflexivity].
  apply Z.leb_le in G. f_equal.
  apply Z.even_spec in HE. destruct HE as (m & Hm).
  set (zc := zero_checksum_field (firstn (Z.to_nat len) buf)).
  assert (HZ : length zc = Z.to_nat len).
  { unfold zc. rewrite zero_checksum_field_length; rewrite length_firstn; lia. }
  assert (HN : length zc = (2 * Z.to_nat m)%nat) by lia.
  replace len with (Z.of_nat (length zc)) at 1 by lia.
  rewrite (icmp_checksum_even e zc (Z.to_nat m) HN)
    by (apply zsum_words16_fits; lia).
  rewrite checksum_bytes_network, decode_encode.
  change (256 ^ Z.of_nat 2) with 65536.
  rewrite Z.mod_small by (pose proof (inet_checksum_range zc); lia).
  reflexivity.
Qed.

(** X7. On a datagram of 20 to 1500 bytes with an even number of ICMP
    bytes, [on_recv] reports a reply exactly when the ICMP part has at
    least 16 bytes, type and code 0 and a checksum field equal to the
    Internet checksum of the part with that field zeroed, its identifier
    equals [getpid() & 0xffff] and its sequence number is above
    [seq - TIMEOUT]. It then prints the sequence number, the TTL byte of
    the IP header and [now] minus the content of the slot, whatever that
    is, and writes 0 into the slot; otherwise it prints nothing and
    changes nothing. *)
Theorem on_recv_reports_iff (e : endianness) (pid : Z) (buf : list byte)
    (nrecv : Z) (now : float) (st : session) :
  length buf = 1500%nat -> 20 <= nrecv <= 1500 ->
  Z.even nrecv = true ->
  length (send_times st) = 5%nat ->
  in_int (seq st - TIMEOUT) = true ->
  exists t times',
    slot_get (send_times st)
      (Z.rem (icmp_seq (parsed_reply e (skipn 20 buf))) TIMEOUT) = Ok t
    /\ slot_set (send_times st)
         (Z.rem (icmp_seq (parsed_reply e (skipn 20 buf))) TIMEOUT) 0%float
       = Ok times'
    /\ on_recv e pid buf nrecv now st
       = if inet_valid (skipn 20 buf) (nrecv - 20)
            && (icmp_id (parsed_reply e (skipn 20 buf)) =? Z.land pid 65535)
            && negb (icmp_seq (parsed_reply e (skipn 20 buf))
                     <=? seq st - TIMEOUT)
         then Ok (mk_session (seq st) times',
                  [EvReply (icmp_seq (parsed_reply e (skipn 20 buf)))
                     (le_decode (field buf 8 1)) (PrimFloat.sub now t)])
         else Ok (st, []).
Proof.
  intros HB HN HE HL HI.
  destruct (on_recv_char e pid buf nrecv now st HB HN HL HI)
    as (t & times' & HG & HS & HR).
  exists t, times'. split; [exact HG |]. split; [exact HS |].
  rewrite HR, valid_reply_even; [reflexivity | | lia |].
  - rewrite length_skipn, HB. cbn. lia.
  - rewrite Z.even_sub, HE. reflexivity.
Qed.

Lemma in_int_range (n : Z) : -2147483648 <= n < 2147483648 -> in_int n = true.
Proof.
  intros H. unfold in_int. change (2 ^ 31) with 2147483648.
  apply andb_true_intro. split; [apply Z.leb_le | apply Z.ltb_lt]; lia.
Qed.

Lemma step_timer_defined (e : endianness) (pid : Z) (now : float) (now_s : Z)
    (st : session) :
  length (send_times st) = 5%nat ->
  0 <= seq st -> seq st + 1 < 2 ^ 31 ->
  exists t times',
    slot_get (send_times st) (Z.rem (seq st + 1) TIMEOUT) = Ok t
    /\ slot_set (send_times st) (Z.rem (seq st + 1) TIMEOUT) now = Ok times'
    /\ length times' = 5%nat
    /\ step e pid st (Timer now now_s)
       = Ok (mk_session (seq st + 1) times',
             (if nonzero t then [EvTimeout (seq st + 1 - TIMEOUT)] else [])
               ++ [EvSend (wire_format e (probe pid (seq st + 1) now_s))]).
Proof.
  change (2 ^ 31) with 2147483648. intros HL H0 H1.
  assert (HI : 0 <= Z.rem (seq st + 1) TIMEOUT < TIMEOUT)
    by (apply Z.rem_bound_pos; unfold TIMEOUT; lia).
  destruct (slot_get_defined _ _ HL HI) as (t & HG).
  destruct (slot_set_defined (send_times st) _ now HL HI) as (times' & HS).
  destruct (slot_set_spec _ _ _ _ HL HS) as (HL' & _).
  exists t, times'. repeat split; try assumption.
  destruct st as [s times]. cbn [seq send_times] in *.
  apply step_timer_ok; try assumption;
    apply in_int_range; unfold TIMEOUT; lia.
Qed.

Lemma step_safe (e : endianness) (pid : Z) (st : session) (i : input) :
  length (send_times st) = 5%nat ->
  0 <= seq st -> seq st + 1 < 2 ^ 31 ->
  datagram_ok i ->
  exists st' out,
    step e pid st i = Ok (st', out)
    /\ length (send_times st') = 5%nat
    /\ seq st <= seq st' <= seq st + 1.
Proof.
  intros HL H0 H1 HD. destruct i as [now now_s | buf nrecv now].
  - destruct (step_timer_defined e pid now now_s st HL H0 H1)
      as (t & times' & _ & _ & HL' & HS).
    eexists. eexists. split; [exact HS |]. cbn [seq send_times]. split; [exact HL' | lia].
  - cbn [datagram_ok] in HD. destruct HD as (HB & HN). unfold MTU in HN.
    change (2 ^ 31) with 2147483648 in H1.
    destruct (on_recv_char e pid buf nrecv now st HB HN HL)
      as (t & times' & _ & HS & HR).
    { apply in_int_range. unfold TIMEOUT. lia. }
    destruct (slot_set_spec _ _ _ _ HL HS) as (HL' & _).
    cbn [step]. rewrite HR.
    destruct (valid_reply e (skipn 20 buf) (nrecv - 20)
              && (icmp_id (parsed_reply e (skipn 20 buf)) =? Z.land pid 65535)
              && negb (icmp_seq (parsed_reply e (skipn 20 buf))
                       <=? seq st - TIMEOUT)).
    + eexists. eexists. split; [reflexivity |]. cbn [seq send_times].
      split; [exact HL' | lia].
    + exists st, []. split; [reflexivity |]. split; [exact HL | lia].
Qed.

Lemma run_safe_from (e : endianness) (pid : Z) (ins : list input) :
  forall st,
    length (send_times st) = 5%nat ->
    0 <= seq st -> seq st + Z.of_nat (length ins) < 2 ^ 31 ->
    Forall datagram_ok ins ->
    exists st' out, run e pid st ins = Ok (st', out).
Proof.
  induction ins as [|i ins IH]; intros st HL H0 H1 HF.
  - exists st, []. reflexivity.
  - apply Forall_cons_iff in HF. destruct HF as (Hi & HF).
    cbn [length] in H1. rewrite Nat2Z.inj_succ in H1.
    destruct (step_safe e pid st i HL H0 ltac:(lia) Hi)
      as (st1 & out1 & HS & HL1 & Hseq).
    destruct (IH st1 HL1 ltac:(lia) ltac:(lia) HF) as (st2 & out2 & HR).
    cbn [run]. rewrite HS. cbn [bind]. rewrite HR. cbn [bind].
    eexists. eexists. reflexivity.
Qed.

(** ** The loop of [main] with its exits *)

Lemma read_whole (n : Z) :
  - 2 ^ 63 <= n < 2 ^ 63 -> (to_size_t n =? 8) = (n =? 8).
Proof.
  intros H. unfold to_size_t.
  change (2 ^ 63) with 9223372036854775808 in H.
  change (2 ^ 64) with 18446744073709551616.
  destruct (n =? 8) eqn:E.
  - apply Z.eqb_eq in E. subst n. reflexivity.
  - apply Z.eqb_neq in E. apply Z.eqb_neq. Z.div_mod_to_equations. lia.
Qed.

(** A tick with its system calls is the tick of [on_timeout], followed by
    the exit if one of the calls failed. *)
Lemma on_timeout_sys_eq (e : endianness) (pid : Z) (now : float) (now_s : Z)
    (sc : syscalls) (st : session) :
  - 2 ^ 63 <= sys_read sc < 2 ^ 63 ->
  on_timeout_sys e pid now now_s sc st
  = (r <- on_timeout e pid now now_s st ;;
     if (sys_read sc =? 8) && negb (sys_inet_pton sc =? -1)
        && negb (sys_sendto sc =? -1)
     then Ok r else Exit).
Proof.
  intros HR. unfold on_timeout_sys, on_timeout, send_req_sys.
  fold (send_req e (mk_icmp 8 0 0 (Z.land pid 65535) (seq st mod 2 ^ 16)
                      (now_s mod 2 ^ 64))).
  rewrite send_req_ok, (read_whole _ HR).
  destruct (slot_get (send_times st) (Z.rem (seq st) TIMEOUT)) as [t | |];
    try reflexivity.
  cbn [bind].
  destruct (if nonzero t
            then s <- int_val (seq st - TIMEOUT) ;; Ok [EvTimeout s]
            else Ok []) as [out | |]; try reflexivity.
  cbn [bind].
  destruct (slot_set (send_times st) (Z.rem (seq st) TIMEOUT) now)
    as [times | |]; try reflexivity.
  cbn [bind].
  destruct (sys_read sc =? 8); [| reflexivity].
  destruct (sys_inet_pton sc =? -1); [reflexivity |].
  destruct (sys_sendto sc =? -1); reflexivity.
Qed.

(** One iteration: it exits when a call fails, and is the iteration of
    [step] otherwise. *)
Lemma main_loop_body_safe (e : endianness) (pid sfd tfd : Z) (st : session)
    (w : wakeup) :
  length (send_times st) = 5%nat ->
  0 <= seq st -> seq st + 1 < 2 ^ 31 ->
  wakeup_ok sfd w ->
  if calls_succeed sfd tfd w
  then exists st' out,
         main_loop_body e pid sfd tfd st w = Ok (st', out)
         /\ step e pid st (input_of sfd w) = Ok (st', out)
         /\ length (send_times st') = 5%nat
         /\ seq st <= seq st' <= seq st + 1
  else main_loop_body e pid sfd tfd st w = Exit.
Proof.
  intros HL H0 H1 (HD & HR).
  unfold calls_succeed, main_loop_body, input_of.
  destruct (w_nev w =? 1); [| reflexivity]. cbn [negb andb].
  destruct (w_fd w =? sfd) eqn:F; cbn [negb andb orb].
  - apply Z.eqb_eq in F. destruct (HD F) as (HB & HN).
    destruct HN as [HN | HN].
    + rewrite HN. reflexivity.
    + replace (w_nrecv w =? -1) with false
        by (symmetry; apply Z.eqb_neq; lia).
      cbn [negb orb].
      destruct (step_safe e pid st (Socket (w_buf w) (w_nrecv w) (w_now w))
                  HL H0 H1 (conj HB HN)) as (st' & out & HS & HL' & Hseq).
      exists st', out. cbn [step] in HS. repeat split; try assumption; lia.
  - destruct (w_fd w =? tfd); [| reflexivity]. cbn [andb].
    destruct (step_safe e pid st (Timer (w_now w) (w_now_s w)) HL H0 H1 I)
      as (st' & out & HS & HL' & Hseq).
    pose proof HS as HT. cbn [step] in HS.
    destruct (int_val (seq st + 1)) as [s | |]; try discriminate HS.
    cbn [bind] in *. rewrite (on_timeout_sys_eq _ _ _ _ _ _ HR), HS.
    cbn [bind].
    destruct ((sys_read (w_calls w) =? 8)
              && negb (sys_inet_pton (w_calls w) =? -1)
              && negb (sys_sendto (w_calls w) =? -1)); [| reflexivity].
    exists st', out. repeat split; try assumption; lia.
Qed.

Lemma main_loop_from (e : endianness) (pid sfd tfd : Z) (ws : list wakeup) :
  forall st,
    length (send_times st) = 5%nat ->
    0 <= seq st -> seq st + Z.of_nat (length ws) < 2 ^ 31 ->
    Forall (wakeup_ok sfd) ws ->
    if forallb (calls_succeed sfd tfd) ws
    then exists st' out,
           main_loop e pid sfd tfd st ws = Ok (st', out)
           /\ run e pid st (map (input_of sfd) ws) = Ok (st', out)
    else main_loop e pid sfd tfd st ws = Exit.
Proof.
  induction ws as [|w ws IH]; intros st HL H0 H1 HF.
  - exists st, []. split; reflexivity.
  - apply Forall_cons_iff in HF. destruct HF as (HW & HF).
    cbn [length] in H1. rewrite Nat2Z.inj_succ in H1.
    pose proof (main_loop_body_safe e pid sfd tfd st w HL H0 ltac:(lia) HW)
      as HS.
    cbn [forallb main_loop map run].
    destruct (calls_succeed sfd tfd w); cbn [andb].
    + destruct HS as (st1 & out1 & HS & HT & HL1 & Hseq).
      specialize (IH st1 HL1 ltac:(lia) ltac:(lia) HF).
      rewrite HS, HT. cbn [bind].
      destruct (forallb (calls_succeed sfd tfd) ws).
      * destruct IH as (st2 & out2 & HM & HR). rewrite HM, HR.
        exists st2, (out1 ++ out2). split; reflexivity.
      * rewrite IH. reflexivity.
    + rewrite HS. reflexivity.
Qed.

(** X8. The loop of [main] ends exactly at the first iteration in which a
    system call fails, and it ends by [exit]: [epoll_wait] not returning 1
    or reporting a descriptor that is neither the socket nor the timer,
    [recvfrom] returning -1, the [read] of the timer not returning 8, or
    [inet_pton] or [sendto] returning -1. As long as none does, and every
    datagram received has at least the 20 bytes of an IPv4 header, fewer
    than 2^31 iterations from the initial state are handled to their end,
    with no access outside a buffer and no overflow of an [int], and they
    print and send what [run] does on the same inputs. *)
Theorem main_loop_exits_iff (e : endianness) (pid sfd tfd : Z)
    (ws : list wakeup) :
  Forall (wakeup_ok sfd) ws ->
  Z.of_nat (length ws) < 2 ^ 31 ->
  if forallb (calls_succeed sfd tfd) ws
  then exists st out,
         main_loop e pid sfd tfd initial ws = Ok (st, out)
         /\ run e pid initial (map (input_of sfd) ws) = Ok (st, out)
  else main_loop e pid sfd tfd initial ws = Exit.
Proof.
  intros HF HL.
  apply main_loop_from; [reflexivity | cbn; lia | exact HL | exact HF].
Qed.

Lemma main_loop_exits_iff_witness :
  (exists st out,
     main_loop LittleEndian 4660 3 5 initial
       [mk_wakeup 1 5 (repeat x00 1500) 0 1000 1 (mk_syscalls 8 1 16);
        mk_wakeup 1 3 (echo_reply 4660 1) 36 1042 1 (mk_syscalls 0 0 0);
        mk_wakeup 1 3 (repeat xff 1500) 20 1050 1 (mk_syscalls 0 0 0)]
     = Ok (st, out)
     /\ run LittleEndian 4660 initial
          [Timer 1000 1; Socket (echo_reply 4660 1) 36 1042;
           Socket (repeat xff 1500) 20 1050]
        = Ok (st, out))
  /\ main_loop LittleEndian 4660 3 5 initial
       [mk_wakeup 1 5 (repeat x00 1500) 0 1000 1 (mk_syscalls 8 1 16);
        mk_wakeup 1 5 (repeat x00 1500) 0 2000 2 (mk_syscalls 8 1 (-1));
        mk_wakeup 1 3 (echo_reply 4660 1) 36 2042 2 (mk_syscalls 0 0 0)]
     = Exit.
Proof.
  split.
  - apply (main_loop_exits_iff LittleEndian 4660 3 5
             [mk_wakeup 1 5 (repeat x00 1500) 0 1000 1 (mk_syscalls 8 1 16);
              mk_wakeup 1 3 (echo_reply 4660 1) 36 1042 1 (mk_syscalls 0 0 0);
              mk_wakeup 1 3 (repeat xff 1500) 20 1050 1 (mk_syscalls 0 0 0)]).
    + repeat (apply Forall_cons;
              [split;
               [intros H; cbn in H;
                first [discriminate H
                      | split; [reflexivity | right; unfold MTU; cbn; lia]]
               | cbn; lia] |]).
      apply Forall_nil.
    + cbn. lia.
  - apply (main_loop_exits_iff LittleEndian 4660 3 5
             [mk_wakeup 1 5 (repeat x00 1500) 0 1000 1 (mk_syscalls 8 1 16);
              mk_wakeup 1 5 (repeat x00 1500) 0 2000 2 (mk_syscalls 8 1 (-1));
              mk_wakeup 1 3 (echo_reply 4660 1) 36 2042 2 (mk_syscalls 0 0 0)]).
    + repeat (apply Forall_cons;
              [split;
               [intros H; cbn in H;
                first [discriminate H
                      | split; [reflexivity | right; unfold MTU; cbn; lia]]
               | cbn; lia] |]).
      apply Forall_nil.
    + cbn. lia.
Defined.

Lemma on_recv_reports_iff_witness :
  exists t times',
    slot_get [0; 1000; 2000; 3000; 0]%float
      (Z.rem (icmp_seq (parsed_reply LittleEndian
                          (skipn 20 (echo_reply 4660 3)))) TIMEOUT) = Ok t
    /\ slot_set [0; 1000; 2000; 3000; 0]%float
         (Z.rem (icmp_seq (parsed_reply LittleEndian
                             (skipn 20 (echo_reply 4660 3)))) TIMEOUT)
         0%float = Ok times'
    /\ on_recv LittleEndian 4660 (echo_reply 4660 3) 36 3042%float
         (mk_session 3 [0; 1000; 2000; 3000; 0]%float)
       = Ok (mk_session 3 times', [EvReply 3 64 (PrimFloat.sub 3042 t)]).
Proof.
  apply (on_recv_reports_iff LittleEndian 4660 (echo_reply 4660 3) 36
           3042%float (mk_session 3 [0; 1000; 2000; 3000; 0]%float));
    [reflexivity | lia | reflexivity | reflexivity | reflexivity].
Defined.

(** X15. Once the counter has reached 65540, [on_recv] drops every
    datagram of 20 to 1500 bytes, valid replies to probes in flight
    included: a 16-bit sequence number is never above the counter minus
    5. *)
Theorem on_recv_drops_all_after_wrap (e : endianness) (pid : Z)
    (buf : list byte) (nrecv : Z) (now : float) (st : session) :
  length buf = 1500%nat -> 20 <= nrecv <= 1500 ->
  length (send_times st) = 5%nat ->
  65540 <= seq st < 2 ^ 31 ->
  on_recv e pid buf nrecv now st = Ok (st, []).
Proof.
  intros HB HN HL Hs. change (2 ^ 31) with 2147483648 in Hs.
  destruct (on_recv_char e pid buf nrecv now st HB HN HL
              ltac:(apply in_int_range; unfold TIMEOUT; lia))
    as (t & times' & _ & _ & ->).
  assert (HX : (8 <= length (skipn 20 buf))%nat)
    by (rewrite length_skipn, HB; cbn; lia).
  pose proof (parsed_seq_range e (skipn 20 buf) HX) as HR.
  replace (icmp_seq (parsed_reply e (skipn 20 buf)) <=? seq st - TIMEOUT)
    with true by (symmetry; apply Z.leb_le; unfold TIMEOUT; lia).
  cbn [negb]. rewrite andb_false_r. reflexivity.
Qed.

Lemma on_recv_drops_all_after_wrap_witness :
  on_recv LittleEndian 4660 (echo_reply 4660 4) 36 1042%float
    (mk_session 65540 [1000; 1000; 1000; 1000; 1000]%float)
  = Ok (mk_session 65540 [1000; 1000; 1000; 1000; 1000]%float, []).
Proof.
  apply (on_recv_drops_all_after_wrap LittleEndian 4660 (echo_reply 4660 4)
           36 1042%float
           (mk_session 65540 [1000; 1000; 1000; 1000; 1000]%float));
    [reflexivity | lia | reflexivity | cbn; lia].
Defined.

Lemma field_app_l (x rest : list byte) (off n : nat) :
  (off + n <= length x)%nat -> field (x ++ rest) off n = field x off n.
Proof.
  intros H. unfold field. rewrite skipn_app, firstn_app, length_skipn.
  replace (off - length x)%nat with 0%nat by lia.
  replace (n - (length x - off))%nat with 0%nat by lia.
  cbn [skipn firstn]. rewrite app_nil_r. reflexivity.
Qed.

Lemma valid_reply_app_l (e : endianness) (x rest : list byte) :
  (16 <= length x)%nat ->
  valid_reply e (x ++ rest) (Z.of_nat (length x))
  = valid_reply e x (Z.of_nat (length x)).
Proof.
  intros H. unfold valid_reply.
  rewrite !field_app_l by lia.
  rewrite Nat2Z.id, firstn_length_app, firstn_all. reflexivity.
Qed.

Lemma parsed_reply_app_l (e : endianness) (x rest : list byte) :
  (16 <= length x)%nat -> parsed_reply e (x ++ rest) = parsed_reply e x.
Proof.
  intros H. unfold parsed_reply. rewrite !field_app_l by lia. reflexivity.
Qed.

Lemma wire_format_length (e : endianness) (req : icmp_t) :
  length (wire_format e req) = 16%nat.
Proof. unfold wire_format. apply wire_body_length. reflexivity. Qed.

Lemma parsed_wire_format (e : endianness) (req : icmp_t) :
  parsed_reply e (wire_format e req)
  = mk_icmp 0 0 (inet_checksum (wire_body e req [x00; x00]) mod 65536)
      (icmp_id req mod 65536) (icmp_seq req mod 65536)
      (icmp_ts req mod 2 ^ 64).
Proof.
  unfold parsed_reply, wire_format.
  rewrite (encode2_big (inet_checksum _)).
  destruct (wire_body_fields e req
              (byte_of_Z (inet_checksum (wire_body e req [x00; x00]) / 256))
              (byte_of_Z (inet_checksum (wire_body e req [x00; x00]))))
    as (_ & _ & F2 & F4 & F6 & F8 & _ & _).
  rewrite F2, F4, F6, F8, <- encode2_big, !decode_encode. reflexivity.
Qed.

Lemma recv_buf_shape (ttl : Z) (icmp : list byte) :
  length icmp = 16%nat ->
  length (recv_buf ttl icmp) = 1500%nat
  /\ skipn 20 (recv_buf ttl icmp) = icmp ++ repeat x00 1464
  /\ le_decode (field (recv_buf ttl icmp) 8 1) = ttl mod 256.
Proof.
  intros HL. unfold recv_buf. rewrite HL. split; [| split].
  - rewrite !length_app, !repeat_length, HL. reflexivity.
  - reflexivity.
  - cbn [repeat app field skipn firstn le_decode].
    rewrite byte_to_of_Z. lia.
Qed.

(** X9. Round trip of one probe. A tick at time [t0] sends the probe of
    the next sequence number (below 65536); when the peer echoes it with
    type 0 and the checksum recomputed, and the datagram arrives with TTL
    [ttl] at time [now], [on_recv] prints exactly one reply line with that
    sequence number, that TTL and [now - t0], and the slot of the probe is
    empty afterwards. *)
Theorem echo_reply_reports_rtt (e : endianness) (pid : Z) (st : session)
    (t0 : float) (now_s ttl : Z) (now : float) :
  length (send_times st) = 5%nat ->
  0 <= seq st < 65535 ->
  0 <= ttl <= 255 ->
  exists st1 out1 st2,
    step e pid st (Timer t0 now_s)
    = Ok (st1, out1 ++ [EvSend (wire_format e (probe pid (seq st + 1) now_s))])
    /\ step e pid st1
         (Socket
            (recv_buf ttl
               (wire_format e
                  (mk_icmp 0 0 0 (Z.land pid 65535) (seq st + 1) now_s)))
            36 now)
       = Ok (st2, [EvReply (seq st + 1) ttl (PrimFloat.sub now t0)])
    /\ seq st2 = seq st + 1
    /\ slot_get (send_times st2) (Z.rem (seq st + 1) TIMEOUT) = Ok 0%float.
Proof.
  intros HL Hs Httl.
  destruct (step_timer_defined e pid t0 now_s st HL ltac:(lia)
              ltac:(change (2 ^ 31) with 2147483648; lia))
    as (t & times1 & _ & HS1 & HL1 & HT).
  destruct (slot_set_spec _ _ _ _ HL HS1) as (_ & Hsame1 & _).
  set (reply := mk_icmp 0 0 0 (Z.land pid 65535) (seq st + 1) now_s).
  destruct (recv_buf_shape ttl (wire_format e reply)
              (wire_format_length e reply)) as (HB & HK & HTTL).
  destruct (on_recv_char e pid (recv_buf ttl (wire_format e reply)) 36 now
              (mk_session (seq st + 1) times1) HB ltac:(lia) HL1
              ltac:(apply in_int_range; cbn [seq]; unfold TIMEOUT; lia))
    as (t1 & times2 & HG2 & HS2 & HR).
  cbn [seq send_times] in *.
  assert (HP : parsed_reply e (skipn 20 (recv_buf ttl (wire_format e reply)))
               = parsed_reply e (wire_format e reply)).
  { rewrite HK. apply parsed_reply_app_l. rewrite wire_format_length. lia. }
  assert (HV : valid_reply e (skipn 20 (recv_buf ttl (wire_format e reply)))
                 (36 - 20) = true).
  { rewrite HK.
    replace (36 - 20) with (Z.of_nat (length (wire_format e reply)))
      by (rewrite wire_format_length; reflexivity).
    rewrite valid_reply_app_l by (rewrite wire_format_length; lia).
    rewrite wire_format_length. apply valid_wire_format; reflexivity. }
  assert (Hid : 0 <= Z.land pid 65535 < 65536).
  { rewrite land_65535. apply Z.mod_pos_bound. lia. }
  rewrite HP, parsed_wire_format in HG2, HS2, HR.
  cbn [icmp_id icmp_seq reply] in HG2, HS2, HR.
  rewrite (Z.mod_small (seq st + 1)) in HG2, HS2, HR by lia.
  rewrite (Z.mod_small (Z.land pid 65535)) in HR by lia.
  rewrite HV, Z.eqb_refl in HR.
  replace (seq st + 1 <=? seq st + 1 - TIMEOUT) with false in HR
    by (symmetry; apply Z.leb_gt; unfold TIMEOUT; lia).
  cbn [andb negb] in HR.
  rewrite Hsame1 in HG2. injection HG2 as <-.
  rewrite HTTL, (Z.mod_small ttl) in HR by lia.
  destruct (slot_set_spec _ _ _ _ HL1 HS2) as (_ & Hsame2 & _).
  exists (mk_session (seq st + 1) times1).
  exists (if nonzero t then [EvTimeout (seq st + 1 - TIMEOUT)] else []).
  exists (mk_session (seq st + 1) times2).
  split; [exact HT |]. split; [exact HR |]. split; [reflexivity | exact Hsame2].
Qed.

Lemma echo_reply_reports_rtt_witness :
  exists st1 out1 st2,
    step LittleEndian 4660 (mk_session 2 [0; 1000; 2000; 0; 0]%float)
      (Timer 3000 3)
    = Ok (st1, out1 ++ [EvSend (wire_format LittleEndian
                                  (probe 4660 (2 + 1) 3))])
    /\ step LittleEndian 4660 st1
         (Socket
            (recv_buf 64
               (wire_format LittleEndian
                  (mk_icmp 0 0 0 (Z.land 4660 65535) (2 + 1) 3)))
            36 3042)
       = Ok (st2, [EvReply (2 + 1) 64 (PrimFloat.sub 3042 3000)])
    /\ seq st2 = 2 + 1
    /\ slot_get (send_times st2) (Z.rem (2 + 1) TIMEOUT) = Ok 0%float.
Proof.
  apply (echo_reply_reports_rtt LittleEndian 4660
           (mk_session 2 [0; 1000; 2000; 0; 0]%float) 3000 3 64 3042);
    [reflexivity | cbn; lia | lia].
Defined.

Lemma sent_app (a b : list event) : sent (a ++ b) = sent a ++ sent b.
Proof.
  induction a as [|ev a IH]; [reflexivity |].
  destruct ev; cbn [app sent]; rewrite IH; reflexivity.
Qed.

Lemma timeouts_app (a b : list event) :
  timeouts (a ++ b) = timeouts a ++ timeouts b.
Proof.
  induction a as [|ev a IH]; [reflexivity |].
  destruct ev; cbn [app timeouts]; rewrite IH; reflexivity.
Qed.

(** [on_recv] prints at most one reply line, sends nothing and leaves the
    counter alone. *)
Lemma on_recv_out (e : endianness) (pid : Z) (buf : list byte) (nrecv : Z)
    (now : float) (st st' : session) (out : list event) :
  on_recv e pid buf nrecv now st = Ok (st', out) ->
  seq st' = seq st
  /\ (out = [] \/ exists s ttl time, out = [EvReply s ttl time]).
Proof.
  unfold on_recv. intros H.
  destruct (nrecv =? -1); [discriminate H |].
  destruct (load8 buf TTL_OFFSET) as [ttl | |]; try discriminate H.
  cbn [bind] in H.
  destruct (parse_reply e no_reply (skipn (Z.to_nat IPV4_HEADER_SIZE) buf)
              (nrecv - IPV4_HEADER_SIZE)) as [[ret reply] | |];
    try discriminate H.
  cbn [bind] in H.
  destruct (ret =? -1); [injection H as <- <-; auto |].
  destruct (negb (icmp_id reply =? Z.land pid 65535));
    [injection H as <- <-; auto |].
  destruct (int_val (seq st - TIMEOUT)) as [limit | |]; try discriminate H.
  cbn [bind] in H.
  destruct (icmp_seq reply <=? limit); [injection H as <- <-; auto |].
  destruct (slot_get (send_times st) (Z.rem (icmp_seq reply) TIMEOUT))
    as [t | |]; try discriminate H.
  cbn [bind] in H.
  destruct (slot_set (send_times st) (Z.rem (icmp_seq reply) TIMEOUT) 0%float)
    as [times' | |]; try discriminate H.
  cbn [bind] in H. injection H as <- <-.
  split; [reflexivity |]. right. eexists. eexists. eexists. reflexivity.
Qed.

Lemma step_timer_out (e : endianness) (pid : Z) (now : float) (now_s : Z)
    (st st' : session) (out : list event) :
  step e pid st (Timer now now_s) = Ok (st', out) ->
  exists t times',
    slot_get (send_times st) (Z.rem (seq st + 1) TIMEOUT) = Ok t
    /\ slot_set (send_times st) (Z.rem (seq st + 1) TIMEOUT) now = Ok times'
    /\ st' = mk_session (seq st + 1) times'
    /\ out = (if nonzero t then [EvTimeout (seq st + 1 - TIMEOUT)] else [])
               ++ [EvSend (wire_format e (probe pid (seq st + 1) now_s))].
Proof.
  cbn [step]. intros H.
  destruct (int_val (seq st + 1)) as [s | |] eqn:V; try discriminate H.
  apply int_val_ok in V. subst s. cbn [bind] in H.
  apply on_timeout_inv in H. cbn [seq send_times] in H. exact H.
Qed.

Lemma sent_tick (t : float) (k : Z) (pkt : list byte) :
  sent ((if nonzero t then [EvTimeout k] else []) ++ [EvSend pkt]) = [pkt].
Proof. destruct (nonzero t); reflexivity. Qed.

Lemma run_sent_from (e : endianness) (pid : Z) (ins : list input) :
  forall st st' out,
    run e pid st ins = Ok (st', out) ->
    sent out = map (wire_format e) (requests pid (seq st) ins).
Proof.
  induction ins as [|i ins IH]; intros st st' out HR.
  - cbn in HR. injection HR as _ <-. reflexivity.
  - cbn [run] in HR.
    destruct (step e pid st i) as [[st1 out1] | |] eqn:S; try discriminate HR.
    cbn [bind] in HR.
    destruct (run e pid st1 ins) as [[st2 out2] | |] eqn:R;
      try discriminate HR.
    cbn [bind] in HR. injection HR as _ <-.
    rewrite sent_app, (IH st1 st2 out2 R).
    destruct i as [now now_s | buf nrecv now].
    + apply step_timer_out in S.
      destruct S as (t & times' & _ & _ & -> & ->).
      rewrite sent_tick. reflexivity.
    + cbn [step] in S. apply on_recv_out in S.
      destruct S as (-> & [-> | (s & ttl & time & ->)]); reflexivity.
Qed.

(** X10. No retransmission and nothing sent on receipt: in every run from
    the initial state the datagrams sent are, in order, one echo request
    per timer tick, of type 8, code 0, identifier [pid & 0xffff], sequence
    number the counter modulo 2^16 and timestamp [time(NULL)]; the handling
    of a received datagram sends nothing. *)
Theorem run_sends_one_request_per_tick (e : endianness) (pid : Z)
    (ins : list input) (st : session) (out : list event) :
  run e pid initial ins = Ok (st, out) ->
  sent out = map (wire_format e) (requests pid 0 ins).
Proof. intros HR. exact (run_sent_from e pid ins initial st out HR). Qed.

Lemma run_sends_one_request_per_tick_witness :
  sent [EvSend (wire_format LittleEndian (probe 4660 1 1));
        EvSend (wire_format LittleEndian (probe 4660 2 2));
        EvReply 2 64 42]
  = map (wire_format LittleEndian)
      (requests 4660 0 [Timer 1000 1; Timer 2000 2;
                        Socket (echo_reply 4660 2) 36 2042]).
Proof.
  apply (run_sends_one_request_per_tick LittleEndian 4660
           [Timer 1000 1; Timer 2000 2; Socket (echo_reply 4660 2) 36 2042]
           (mk_session 2 [0; 1000; 0; 0; 0]%float)).
  vm_compute. reflexivity.
Defined.

Lemma filled_initial : filled 0 (send_times initial).
Proof.
  intros index t HG. split.
  - intros HN. exfalso. cbn [initial send_times repeat] in HG.
    unfold slot_get in HG.
    destruct ((0 <=? index) && (index <? TIMEOUT)) eqn:B; [| discriminate HG].
    apply andb_prop in B. destruct B as (B0 & B1).
    apply Z.leb_le in B0. apply Z.ltb_lt in B1. unfold TIMEOUT in B1.
    assert (C : index = 0 \/ index = 1 \/ index = 2 \/ index = 3 \/ index = 4)
      by lia.
    destruct C as [-> | [-> | [-> | [-> | ->]]]];
      cbn in HG; injection HG as <-; discriminate HN.
  - intros (k & Hk & _). lia.
Qed.

Lemma rem5_same (k s : Z) :
  1 <= k <= s -> Z.rem k TIMEOUT = Z.rem (s + 1) TIMEOUT -> TIMEOUT < s + 1.
Proof.
  unfold TIMEOUT. intros Hk. rewrite !Z.rem_mod_nonneg by lia.
  intros H. Z.div_mod_to_equations. lia.
Qed.

Lemma rem5_back (s : Z) :
  0 <= s -> TIMEOUT < s + 1 ->
  Z.rem (s + 1 - TIMEOUT) TIMEOUT = Z.rem (s + 1) TIMEOUT.
Proof.
  unfold TIMEOUT. intros H0 H. rewrite !Z.rem_mod_nonneg by lia.
  Z.div_mod_to_equations. lia.
Qed.

Lemma filled_timeout (s : Z) (times : list float) (t : float) :
  0 <= s -> filled s times ->
  slot_get times (Z.rem (s + 1) TIMEOUT) = Ok t ->
  nonzero t = (TIMEOUT <? s + 1).
Proof.
  intros H0 HF HG. destruct (HF _ _ HG) as (F1 & F2).
  destruct (TIMEOUT <? s + 1) eqn:L.
  - apply Z.ltb_lt in L. apply F2. exists (s + 1 - TIMEOUT).
    split; [unfold TIMEOUT in *; lia | apply rem5_back; assumption].
  - apply Z.ltb_ge in L. destruct (nonzero t); [| reflexivity].
    destruct (F1 eq_refl) as (k & Hk & HR).
    pose proof (rem5_same k s Hk HR). lia.
Qed.

Lemma filled_step (s : Z) (times times' : list float) (now : float) :
  0 <= s ->
  length times = 5%nat -> filled s times -> nonzero now = true ->
  slot_set times (Z.rem (s + 1) TIMEOUT) now = Ok times' ->
  filled (s + 1) times'.
Proof.
  intros H0 HL HF HN HS index t HG.
  destruct (slot_set_spec _ _ _ _ HL HS) as (_ & Hsame & Hother).
  destruct (Z.eq_dec index (Z.rem (s + 1) TIMEOUT)) as [-> | Hne].
  - rewrite Hsame in HG. injection HG as <-. split; [| auto].
    intros _. exists (s + 1). split; [lia | reflexivity].
  - rewrite (Hother index Hne) in HG. destruct (HF _ _ HG) as (F1 & F2).
    split.
    + intros HT. destruct (F1 HT) as (k & Hk & HR).
      exists k. split; [lia | exact HR].
    + intros (k & Hk & HR). apply F2. exists k. split; [| exact HR].
      assert (k <> s + 1) by (intros ->; apply Hne; symmetry; exact HR). lia.
Qed.

Lemma mark_of_probe_mod (e : endianness) (pid s now_s : Z) :
  mark_of (EvSend (wire_format e (probe pid s now_s))) = Sent (s mod 65536).
Proof.
  cbn [mark_of]. rewrite wire_seq_format. cbn [probe icmp_seq].
  change (2 ^ 16) with 65536. rewrite Z.mod_mod by lia. reflexivity.
Qed.

Lemma silent_run_from (e : endianness) (pid : Z) (ticks : list (float * Z)) :
  forall st,
    length (send_times st) = 5%nat ->
    0 <= seq st -> seq st + Z.of_nat (length ticks) < 2 ^ 31 ->
    filled (seq st) (send_times st) ->
    Forall (fun tk => nonzero (fst tk) = true) ticks ->
    exists st' out,
      run e pid st (map (fun tk => Timer (fst tk) (snd tk)) ticks)
      = Ok (st', out)
      /\ map mark_of out = silent_marks (seq st) (length ticks).
Proof.
  induction ticks as [|[now now_s] ticks IH]; intros st HL H0 H1 HF HN.
  - exists st, []. split; reflexivity.
  - apply Forall_cons_iff in HN. destruct HN as (HN & HNs). cbn [fst] in HN.
    cbn [length] in H1. rewrite Nat2Z.inj_succ in H1.
    destruct (step_timer_defined e pid now now_s st HL H0 ltac:(lia))
      as (t & times' & HG & HS & HL' & HT).
    pose proof (filled_timeout _ _ _ H0 HF HG) as HTO.
    pose proof (filled_step _ _ _ _ H0 HL HF HN HS) as HF'.
    destruct (IH (mk_session (seq st + 1) times') HL' ltac:(cbn [seq]; lia)
                ltac:(cbn [seq]; lia) HF' HNs) as (st' & out & HR & HM).
    cbn [seq] in HM.
    cbn [map run fst snd length silent_marks]. rewrite HT. cbn [bind].
    rewrite HR. cbn [bind]. eexists. eexists. split; [reflexivity |].
    rewrite HTO, !map_app, HM. cbn [map].
    rewrite mark_of_probe_mod.
    destruct (TIMEOUT <? seq st + 1); reflexivity.
Qed.

(** X11. When no datagram arrives, any number of ticks below 2^31 with a
    wall clock that is not at the epoch is handled to its end, and the
    output is, tick by tick: the probe of the tick, preceded from the
    sixth tick on by the timeout of the probe sent five ticks before. *)
Theorem silent_run_marks (e : endianness) (pid : Z)
    (ticks : list (float * Z)) :
  Forall (fun tk => nonzero (fst tk) = true) ticks ->
  Z.of_nat (length ticks) < 2 ^ 31 ->
  exists st out,
    run e pid initial (map (fun tk => Timer (fst tk) (snd tk)) ticks)
    = Ok (st, out)
    /\ map mark_of out = silent_marks 0 (length ticks).
Proof.
  intros HN HL.
  exact (silent_run_from e pid ticks initial eq_refl ltac:(cbn; lia) HL
           filled_initial HN).
Qed.

Lemma silent_run_marks_witness :
  exists st out,
    run LittleEndian 4660 initial
      (map (fun tk => Timer (fst tk) (snd tk))
         [(1000%float, 1); (2000%float, 2); (3000%float, 3);
          (4000%float, 4); (5000%float, 5); (6000%float, 6);
          (7000%float, 7)])
    = Ok (st, out)
    /\ map mark_of out
       = [Sent 1; Sent 2; Sent 3; Sent 4; Sent 5;
          TimedOut 1; Sent 6; TimedOut 2; Sent 7].
Proof.
  apply (silent_run_marks LittleEndian 4660
           [(1000%float, 1); (2000%float, 2); (3000%float, 3);
            (4000%float, 4); (5000%float, 5); (6000%float, 6);
            (7000%float, 7)]);
    [repeat constructor | cbn; lia].
Defined.

(** ** Timeouts in any run *)

Lemma set_by_probe_initial : set_by_probe initial.
Proof.
  split; [reflexivity |]. split; [cbn; lia |].
  intros index t HG HN. destruct (filled_initial index t HG) as (F & _).
  destruct (F HN) as (k & Hk & _). cbn in Hk. lia.
Qed.

Lemma step_set_by_probe (e : endianness) (pid : Z) (st st' : session)
    (i : input) (out : list event) :
  set_by_probe st ->
  step e pid st i = Ok (st', out) ->
  set_by_probe st'
  /\ seq st <= seq st'
  /\ (timeouts out = []
      \/ (timeouts out = [seq st' - TIMEOUT]
          /\ seq st' = seq st + 1 /\ 1 <= seq st' - TIMEOUT)).
Proof.
  intros (HL & H0 & HP) HS. destruct i as [now now_s | buf nrecv now].
  - apply step_timer_out in HS.
    destruct HS as (t & times' & HG & HS & -> & ->).
    destruct (slot_set_spec _ _ _ _ HL HS) as (HL' & Hsame & Hother).
    unfold set_by_probe. cbn [seq send_times]. split; [| split; [lia |]].
    + split; [exact HL' |]. split; [lia |]. intros index t' HG' HN'.
      destruct (Z.eq_dec index (Z.rem (seq st + 1) TIMEOUT)) as [-> | Hne].
      * exists (seq st + 1). split; [lia | reflexivity].
      * rewrite (Hother index Hne) in HG'.
        destruct (HP index t' HG' HN') as (k & Hk & HR).
        exists k. split; [lia | exact HR].
    + rewrite timeouts_app. cbn [timeouts]. rewrite app_nil_r.
      destruct (nonzero t) eqn:HN; [right | left; reflexivity].
      split; [reflexivity |]. split; [reflexivity |].
      destruct (HP _ _ HG HN) as (k & Hk & HR).
      pose proof (rem5_same k (seq st) Hk HR). unfold TIMEOUT in *. lia.
  - cbn [step] in HS.
    pose proof (on_recv_out _ _ _ _ _ _ _ _ HS) as (Hseq & Ho).
    apply on_recv_state in HS. split; [| split; [lia |]].
    + destruct HS as [-> | (idx & times' & HS & ->)].
      * split; [exact HL |]. split; [exact H0 | exact HP].
      * destruct (slot_set_spec _ _ _ _ HL HS) as (HL' & Hsame & Hother).
        unfold set_by_probe. cbn [seq send_times].
        split; [exact HL' |]. split; [exact H0 |].
        intros index t' HG' HN'.
        destruct (Z.eq_dec index idx) as [-> | Hne].
        -- rewrite Hsame in HG'. injection HG' as <-. discriminate HN'.
        -- rewrite (Hother index Hne) in HG'. exact (HP index t' HG' HN').
    + left. destruct Ho as [-> | (s & ttl & time & ->)]; reflexivity.
Qed.

Lemma run_timeouts_from (e : endianness) (pid : Z) (ins : list input) :
  forall st st' out,
    set_by_probe st ->
    run e pid st ins = Ok (st', out) ->
    seq st <= seq st'
    /\ StronglySorted Z.lt (timeouts out)
    /\ Forall (fun k => 1 <= k /\ seq st - TIMEOUT < k <= seq st' - TIMEOUT)
         (timeouts out).
Proof.
  induction ins as [|i ins IH]; intros st st' out HP HR.
  - cbn in HR. injection HR as <- <-. cbn [timeouts].
    split; [lia |]. split; constructor.
  - cbn [run] in HR.
    destruct (step e pid st i) as [[st1 out1] | |] eqn:S; try discriminate HR.
    cbn [bind] in HR.
    destruct (run e pid st1 ins) as [[st2 out2] | |] eqn:R;
      try discriminate HR.
    cbn [bind] in HR. injection HR as <- <-.
    destruct (step_set_by_probe e pid st st1 i out1 HP S) as (HP1 & Hle & HT).
    destruct (IH st1 st2 out2 HP1 R) as (Hle2 & HSo & HFo).
    rewrite timeouts_app. split; [lia |].
    destruct HT as [-> | (-> & Hs1 & Hk)]; cbn [app].
    + split; [exact HSo |].
      eapply Forall_impl; [| exact HFo]. cbv beta. intros k Hk. lia.
    + split.
      * constructor; [exact HSo |].
        eapply Forall_impl; [| exact HFo]. cbv beta. intros k Hk'. lia.
      * constructor; [lia |].
        eapply Forall_impl; [| exact HFo]. cbv beta. intros k Hk'. lia.
Qed.

(** X12. In every run from the initial state the timeout lines carry
    strictly increasing sequence numbers, so that no probe is reported
    timed out twice, and each of them is at least 1 and at most the
    counter minus 5: a timeout is never reported for a probe that was not
    sent at least five ticks ago. *)
Theorem run_timeouts_sound (e : endianness) (pid : Z) (ins : list input)
    (st : session) (out : list event) :
  run e pid initial ins = Ok (st, out) ->
  StronglySorted Z.lt (timeouts out)
  /\ Forall (fun k => 1 <= k <= seq st - TIMEOUT) (timeouts out).
Proof.
  intros HR.
  destruct (run_timeouts_from e pid ins initial st out set_by_probe_initial HR)
    as (_ & HS & HF).
  split; [exact HS |].
  eapply Forall_impl; [| exact HF]. cbv beta. intros k Hk. lia.
Qed.

Lemma run_timeouts_sound_witness :
  StronglySorted Z.lt [1; 2]
  /\ Forall (fun k => 1 <= k <= 7 - TIMEOUT) [1; 2].
Proof.
  apply (run_timeouts_sound LittleEndian 4660
           [Timer 1000 1; Timer 2000 2; Timer 3000 3; Timer 4000 4;
            Timer 5000 5; Socket (echo_reply 4660 3) 36 5042;
            Timer 6000 6; Timer 7000 7]
           (mk_session 7 [5000; 6000; 7000; 0; 4000]%float)
           [EvSend (wire_format LittleEndian (probe 4660 1 1));
            EvSend (wire_format LittleEndian (probe 4660 2 2));
            EvSend (wire_format LittleEndian (probe 4660 3 3));
            EvSend (wire_format LittleEndian (probe 4660 4 4));
            EvSend (wire_format LittleEndian (probe 4660 5 5));
            EvReply 3 64 2042;
            EvTimeout 1;
            EvSend (wire_format LittleEndian (probe 4660 6 6));
            EvTimeout 2;
            EvSend (wire_format LittleEndian (probe 4660 7 7))]).
  vm_compute. reflexivity.
Defined.

(** ** The command line of [main] *)

Lemma scan_options_none (args : list string) :
  forallb (fun a => negb (is_option a)) args = true ->
  scan_options args = None.
Proof.
  induction args as [|a args IH]; [reflexivity |].
  cbn [forallb scan_options]. unfold is_option. intros H.
  apply andb_prop in H. destruct H as (Ha & Hr).
  destruct (String.eqb a "--help"); [discriminate Ha |].
  destruct (String.eqb a "--version"); [discriminate Ha |].
  apply IH. exact Hr.
Qed.

Lemma scan_options_first (pre post : list string) (a : string) :
  forallb (fun a => negb (is_option a)) pre = true ->
  is_option a = true ->
  scan_options (pre ++ a :: post)
  = Some (if String.eqb a "--help" then PrintHelp else PrintVersion).
Proof.
  intros HP HA. induction pre as [|p pre IH].
  - cbn [app scan_options]. unfold is_option in HA.
    destruct (String.eqb a "--help"); [reflexivity |].
    destruct (String.eqb a "--version"); [reflexivity | discriminate HA].
  - cbn [forallb] in HP. apply andb_prop in HP. destruct HP as (Hp & Hr).
    cbn [app scan_options]. unfold is_option in Hp.
    destruct (String.eqb p "--help"); [discriminate Hp |].
    destruct (String.eqb p "--version"); [discriminate Hp |].
    apply IH. exact Hr.
Qed.

(** X13. The first [--help] or [--version] on the command line decides:
    [main] prints the text of that option and exits with success,
    whatever precedes and follows it and whatever the number of
    arguments. *)
Theorem first_option_wins (prog : string) (pre post : list string)
    (a : string) :
  forallb (fun a => negb (is_option a)) pre = true ->
  is_option a = true ->
  main_startup (prog :: pre ++ a :: post)
  = if String.eqb a "--help" then PrintHelp else PrintVersion.
Proof.
  intros HP HA. unfold main_startup. cbn [tl].
  rewrite (scan_options_first pre post a HP HA). reflexivity.
Qed.

Lemma first_option_wins_witness :
  main_startup ["myping"; "10.0.0.1"; "--version"; "extra"; "--help"]%string
  = PrintVersion.
Proof.
  exact (first_option_wins "myping" ["10.0.0.1"%string]
           ["extra"; "--help"]%string "--version" eq_refl eq_refl).
Defined.

Lemma scan_options_some (args : list string) (s : startup) :
  scan_options args = Some s -> s = PrintHelp \/ s = PrintVersion.
Proof.
  induction args as [|a args IH]; [discriminate |].
  cbn [scan_options].
  destruct (String.eqb a "--help"); [intros H; injection H as <-; auto |].
  destruct (String.eqb a "--version"); [intros H; injection H as <-; auto |].
  exact IH.
Qed.

(** [main] gets past its argument handling exactly when [argv] has one
    argument besides the program name and it is not an option. *)
Lemma main_startup_runs_iff (argv : list string) (ip : string) :
  main_startup argv = RunSession ip
  <-> exists prog, argv = [prog; ip] /\ is_option ip = false.
Proof.
  unfold main_startup. split.
  - destruct (scan_options (tl argv)) as [s |] eqn:SO.
    + intros ->. apply scan_options_some in SO.
      destruct SO as [SO | SO]; discriminate SO.
    + destruct argv as [|prog [|a [|b rest]]];
        cbn [length Nat.eqb negb nth]; try discriminate.
      intros H. injection H as <-. exists prog. split; [reflexivity |].
      cbn [tl scan_options] in SO. unfold is_option.
      destruct (String.eqb a "--help"); [discriminate SO |].
      destruct (String.eqb a "--version"); [discriminate SO |].
      reflexivity.
  - intros (prog & -> & HO). unfold is_option in HO.
    cbn [tl scan_options length Nat.eqb negb nth].
    destruct (String.eqb ip "--help"); [discriminate HO |].
    destruct (String.eqb ip "--version"); [discriminate HO |].
    reflexivity.
Qed.

(** X14. [main] reaches its event loop exactly when [argv] has one
    argument besides the program name, that argument is neither [--help]
    nor [--version], and none of the six calls that set the session up
    ([socket], [epoll_create], [timerfd_create], [timerfd_settime] and the
    two [epoll_ctl]) returns -1. The loop then runs with that argument as
    the address and with the descriptors the three creating calls
    returned. *)
Theorem event_loop_reached_iff (argv : list string) (c : setup_calls)
    (ip : string) (sfd efd tfd : Z) :
  main_launch argv c = EnterLoop ip sfd efd tfd
  <-> (exists prog, argv = [prog; ip] /\ is_option ip = false)
      /\ setup_succeeds c = true
      /\ sfd = r_socket c /\ efd = r_epoll_create c
      /\ tfd = r_timerfd_create c.
Proof.
  unfold main_launch, setup_succeeds, create_sfd, create_efd, create_tfd,
    register_epoll_event.
  split.
  - destruct (main_startup argv) as [| | | ip'] eqn:M; try discriminate.
    destruct (r_socket c =? -1); [discriminate |].
    destruct (r_epoll_create c =? -1); [discriminate |].
    destruct (r_timerfd_create c =? -1); [discriminate |].
    destruct (r_timerfd_settime c =? -1); [discriminate |].
    destruct (r_epoll_ctl_sfd c =? -1); [discriminate |].
    destruct (r_epoll_ctl_tfd c =? -1); [discriminate |].
    cbn [bind]. intros H. injection H as <- <- <- <-.
    split; [| repeat split]. apply main_startup_runs_iff. exact M.
  - intros (HA & HS & -> & -> & ->).
    apply main_startup_runs_iff in HA. rewrite HA.
    destruct (r_socket c =? -1); [discriminate HS |].
    destruct (r_epoll_create c =? -1); [discriminate HS |].
    destruct (r_timerfd_create c =? -1); [discriminate HS |].
    destruct (r_timerfd_settime c =? -1); [discriminate HS |].
    destruct (r_epoll_ctl_sfd c =? -1); [discriminate HS |].
    destruct (r_epoll_ctl_tfd c =? -1); [discriminate HS |].
    reflexivity.
Qed.

Lemma event_loop_reached_iff_witness :
  main_launch ["myping"; "10.0.0.1"]%string (mk_setup 3 4 5 0 0 0)
  = EnterLoop "10.0.0.1" 3 4 5.
Proof.
  apply (proj2 (event_loop_reached_iff ["myping"; "10.0.0.1"]%string
                  (mk_setup 3 4 5 0 0 0) "10.0.0.1" 3 4 5)).
  split; [| repeat split].
  exists "myping"%string. split; reflexivity.
Defined.
